(** * TaskSyncer: the task record, the task list and the Trello interface

    A shallow embedding of [src/Task.js], [src/TaskList.js] and
    [src/TrelloInterface.js].  JavaScript values are an inductive type,
    methods are state-passing functions that either return or throw, and the
    remote service is an oracle answering the requests the code sends. *)

From Stdlib Require Import ZArith Ascii.
From stdpp Require Import gmap strings list pretty.

Set Warnings "-register-all".
Local Open Scope string_scope.
Local Open Scope Z_scope.

(** ** JavaScript values and the primitive operations the sources use *)
Module Js.

(** The data the program handles is JSON-like.  Numbers are the integers (ids,
    day counts, status codes) together with [NaN], which [parseInt] can
    produce.  Arrays and plain objects are given by their contents; a plain
    object lists its own properties in enumeration order. *)
Inductive value :=
| VUndefined
| VNull
| VBool (b : bool)
| VNum (n : Z)
| VNaN
| VStr (s : string)
| VArr (elems : list value)
| VObj (props : list (string * value)).

Inductive type := TUndefined | TObject | TBoolean | TNumber | TString.

Definition type_name (ty : type) : string :=
  match ty with
  | TUndefined => "undefined"
  | TObject => "object"
  | TBoolean => "boolean"
  | TNumber => "number"
  | TString => "string"
  end.

(** [typeof v] *)
Definition typeof (v : value) : type :=
  match v with
  | VUndefined => TUndefined
  | VNull | VArr _ | VObj _ => TObject
  | VBool _ => TBoolean
  | VNum _ | VNaN => TNumber
  | VStr _ => TString
  end.

(** What a [throw] or a rejected promise carries. *)
Inductive error :=
| TypeError (msg : string)
| NewError (msg : string)
| Rejection (reason : value).

Inductive result (A : Type) :=
| Ok (a : A)
| Throw (e : error).
Arguments Ok {A} a.
Arguments Throw {A} e.

Definition and_then {A B : Type} (r : result A) (k : A -> result B) : result B :=
  match r with
  | Ok a => k a
  | Throw e => Throw e
  end.

Notation "'let+' x ':=' r 'in' k" := (and_then r (fun x => k))
  (at level 10, x name, r at level 100, k at level 200,
   format "'[v' 'let+'  x  ':='  r  'in' '/' k ']'").

(** *** Own properties of a plain object *)
Section Props.
Context {A : Type}.

Fixpoint lookup_prop (k : string) (props : list (string * A)) : option A :=
  match props with
  | [] => None
  | (k', v) :: rest => if String.eqb k k' then Some v else lookup_prop k rest
  end.

(** [o[k] = v]: an existing property keeps its place, a new one goes last. *)
Fixpoint set_prop (k : string) (v : A) (props : list (string * A))
  : list (string * A) :=
  match props with
  | [] => [(k, v)]
  | (k', v') :: rest =>
      if String.eqb k k' then (k', v) :: rest else (k', v') :: set_prop k v rest
  end.

(** [delete o[k]] *)
Definition delete_prop (k : string) (props : list (string * A))
  : list (string * A) :=
  filter (fun kv => negb (String.eqb k kv.1)) props.

(** [Object.assign(target, source)] *)
Definition assign (target source : list (string * A)) : list (string * A) :=
  fold_left (fun acc kv => set_prop kv.1 kv.2 acc) source target.
End Props.

(** Truthiness, as tested by [if (v)]. *)
Definition truthy (v : value) : bool :=
  match v with
  | VUndefined | VNull | VNaN => false
  | VBool b => b
  | VNum n => negb (n =? 0)
  | VStr s => negb (String.eqb s "")
  | VArr _ | VObj _ => true
  end.

(** [a === b].  Arrays and objects compare by identity; the program only ever
    compares values that come from different places (a configuration entry
    with a payload, an argument with a stored id), so two of them are never
    the same object. *)
Definition strict_eq (a b : value) : bool :=
  match a, b with
  | VUndefined, VUndefined | VNull, VNull => true
  | VBool x, VBool y => Bool.eqb x y
  | VNum x, VNum y => x =? y
  | VStr x, VStr y => String.eqb x y
  | _, _ => false
  end.

(** SameValueZero, the equality of [Set.has] and [Array.includes]: as [===]
    except that [NaN] equals itself. *)
Definition same_value_zero (a b : value) : bool :=
  match a, b with
  | VNaN, VNaN => true
  | _, _ => strict_eq a b
  end.

(** [a == null] *)
Definition loose_eq_null (a : value) : bool :=
  match a with
  | VUndefined | VNull => true
  | _ => false
  end.

(** ToString, as applied by template literals, [join] and [parseInt]. *)
Fixpoint to_string (v : value) : string :=
  match v with
  | VUndefined => "undefined"
  | VNull => "null"
  | VBool true => "true"
  | VBool false => "false"
  | VNum n => pretty n
  | VNaN => "NaN"
  | VStr s => s
  | VArr elems =>
      String.concat ","
        (map (fun e => match e with
                       | VUndefined | VNull => ""
                       | _ => to_string e
                       end) elems)
  | VObj _ => "[object Object]"
  end.

(** [array.join(sep)] *)
Definition join (sep : string) (elems : list value) : string :=
  String.concat sep
    (map (fun e => match e with
                   | VUndefined | VNull => ""
                   | _ => to_string e
                   end) elems).

(** [v.toString()]: there is no such method on [undefined] and [null]. *)
Definition toString (v : value) : result string :=
  match v with
  | VUndefined | VNull =>
      Throw (TypeError "Cannot read properties of undefined or null")
  | _ => Ok (to_string v)
  end.

(** [v.name] for the property names the sources read, none of which is an
    array index. *)
Definition get (v : value) (name : string) : result value :=
  match v with
  | VUndefined | VNull =>
      Throw (TypeError "Cannot read properties of undefined or null")
  | VObj props => Ok (default VUndefined (lookup_prop name props))
  | VArr elems =>
      Ok (if String.eqb name "length"
          then VNum (Z.of_nat (length elems)) else VUndefined)
  | VStr s =>
      Ok (if String.eqb name "length"
          then VNum (Z.of_nat (String.length s)) else VUndefined)
  | _ => Ok VUndefined
  end.

(** [name in v], for the same property names. *)
Definition has_property (name : string) (v : value) : result bool :=
  match v with
  | VObj props => Ok (bool_decide (is_Some (lookup_prop name props)))
  | VArr _ => Ok (String.eqb name "length")
  | _ => Throw (TypeError "Cannot use 'in' operator to search in a primitive")
  end.

(** [Object.keys(v)] *)
Definition keys (v : value) : result (list string) :=
  match v with
  | VUndefined | VNull =>
      Throw (TypeError "Cannot convert undefined or null to object")
  | VObj props => Ok (map fst props)
  | VArr elems => Ok (map (fun i : nat => pretty i) (seq 0 (length elems)))
  | VStr s => Ok (map (fun i : nat => pretty i) (seq 0 (String.length s)))
  | _ => Ok []
  end.

Definition isArray (v : value) : bool :=
  match v with
  | VArr _ => true
  | _ => false
  end.

(** *** [parseInt(string)] without a radix *)
Definition is_space (c : ascii) : bool :=
  let n := nat_of_ascii c in
  (Nat.eqb n 32 || Nat.eqb n 9 || Nat.eqb n 10
   || Nat.eqb n 11 || Nat.eqb n 12 || Nat.eqb n 13)%bool.

Fixpoint skip_spaces (s : string) : string :=
  match s with
  | String c rest => if is_space c then skip_spaces rest else s
  | EmptyString => s
  end.

Definition digit_value (radix : Z) (c : ascii) : option Z :=
  let n := Z.of_nat (nat_of_ascii c) in
  let d := if (48 <=? n) && (n <=? 57) then n - 48
           else if (97 <=? n) && (n <=? 122) then n - 87
           else if (65 <=? n) && (n <=? 90) then n - 55
           else radix in
  if d <? radix then Some d else None.

(** The longest prefix of digits, read in the given radix; [None] when the
    string does not start with a digit. *)
Fixpoint digits (radix : Z) (s : string) (acc : option Z) : option Z :=
  match s with
  | String c rest =>
      match digit_value radix c with
      | Some d => digits radix rest (Some (default 0 acc * radix + d))
      | None => acc
      end
  | EmptyString => acc
  end.

Definition parseInt (s : string) : value :=
  let s := skip_spaces s in
  let '(sign, s) :=
    match s with
    | String "-" rest => (-1, rest)
    | String "+" rest => (1, rest)
    | _ => (1, s)
    end in
  let '(radix, s) :=
    match s with
    | String "0" (String "x" rest) | String "0" (String "X" rest) => (16, rest)
    | _ => (10, s)
    end in
  match digits radix s None with
  | Some n => VNum (sign * n)
  | None => VNaN
  end.

(** Numbers and [NaN], on which [===] and SameValueZero differ only in that
    [NaN] is in a set it was added to. *)
Definition plain (v : value) : Prop :=
  match v with
  | VNum _ | VNaN => True
  | _ => False
  end.

(** *** A [Set] of values, in insertion order *)
Definition set_has (s : list value) (v : value) : bool :=
  existsb (same_value_zero v) s.

Definition set_add (s : list value) (v : value) : list value :=
  if set_has s v then s else s ++ [v].

(** *** Array methods *)

(** [array.indexOf(v)], [None] standing for [-1]. *)
Fixpoint indexOf (elems : list value) (v : value) : option nat :=
  match elems with
  | [] => None
  | e :: rest => if strict_eq e v then Some 0%nat else S <$> indexOf rest v
  end.

(** [array.findIndex(p)], [None] standing for [-1]. *)
Fixpoint findIndex {A : Type} (p : A -> bool) (elems : list A) : option nat :=
  match elems with
  | [] => None
  | e :: rest => if p e then Some 0%nat else S <$> findIndex p rest
  end.

(** [array.find(p)] for a callback that may throw; [None] is [undefined]. *)
Fixpoint find {A : Type} (p : A -> result bool) (elems : list A)
  : result (option A) :=
  match elems with
  | [] => Ok None
  | e :: rest =>
      let+ found := p e in
      if found then Ok (Some e) else find p rest
  end.

(** [array.includes(v)] *)
Definition includes (elems : list value) (v : value) : bool :=
  existsb (fun e => same_value_zero e v) elems.

(** [array.splice(i, 1)]: what is left in the array. *)
Definition splice1 (i : nat) (elems : list value) : list value :=
  take i elems ++ drop (S i) elems.


(** *** String methods *)

(** [s.split(/,/)] for the separator given: the pieces between its
    occurrences, of which there is always at least one. *)
Fixpoint split (sep : ascii) (s : string) : list string :=
  match s with
  | EmptyString => [""]
  | String c rest =>
      if Ascii.eqb c sep then "" :: split sep rest
      else match split sep rest with
           | piece :: pieces => String c piece :: pieces
           | [] => [String c ""]
           end
  end.

Fixpoint trim_end (s : string) : string :=
  match s with
  | EmptyString => ""
  | String c rest =>
      let rest := trim_end rest in
      if is_space c && String.eqb rest "" then "" else String c rest
  end.

(** [s.trim()], white space being the six characters of [is_space]. *)
Definition trim (s : string) : string := trim_end (skip_spaces s).

End Js.

(** ** Effects: mutable state and exceptions *)
Module Eff.
Import Js.

(** A computation runs from a state, returns or throws, and leaves a state
    behind; what was mutated before a [throw] stays mutated. *)
Definition M (S A : Type) : Type := S -> result A * S.

Definition ret {S A} (a : A) : M S A := fun s => (Ok a, s).

Definition bind {S A B} (m : M S A) (k : A -> M S B) : M S B :=
  fun s =>
    match m s with
    | (Ok a, s') => k a s'
    | (Throw e, s') => (Throw e, s')
    end.

Definition throw {S A} (e : error) : M S A := fun s => (Throw e, s).

Definition lift {S A} (r : result A) : M S A := fun s => (r, s).

Definition gets {S A} (f : S -> A) : M S A := fun s => (Ok (f s), s).

Definition modify {S} (f : S -> S) : M S unit := fun s => (Ok tt, f s).

(** How a promise settles.  A chain of promises is run to completion in one
    go, in the order its steps are sequenced by [then], [catch] and [await]. *)
Inductive settled :=
| Fulfilled (v : value)
| Rejected (e : error).

(** The body of an [async] function or of a promise handler: what it throws
    becomes the rejection of the promise it stands for. *)
Definition settle {S} (m : M S settled) : M S settled :=
  fun s =>
    match m s with
    | (Throw e, s') => (Ok (Rejected e), s')
    | r => r
    end.

(** [await p] *)
Definition await {S} (p : M S settled) : M S value :=
  fun s =>
    match p s with
    | (Ok (Fulfilled v), s') => (Ok v, s')
    | (Ok (Rejected e), s') => (Throw e, s')
    | (Throw e, s') => (Throw e, s')
    end.

Module Notations.
Notation "'let*' x ':=' m 'in' k" := (bind m (fun x => k))
  (at level 10, x name, m at level 100, k at level 200,
   format "'[v' 'let*'  x  ':='  m  'in' '/' k ']'").
Notation "'let*' '_' ':=' m 'in' k" := (bind m (fun _ => k))
  (at level 10, m at level 100, k at level 200,
   format "'[v' 'let*'  '_'  ':='  m  'in' '/' k ']'").
End Notations.
End Eff.

(** ** The modules the sources require but which are not among them *)

(** [Globals.js]: the field ids and the category numbers. *)
Module Globals.
Record fields := {
  NAME : string;
  DESCRIPTION : string;
  CATEGORIES : string;
  TAGS : string;
  GOOGLE_ID : string;
  TRELLO_ID : string;
  DAYS : string;
  IS_BEGINNER : string;
  MAX_INSTANCES : string;
  LAST_MODIFIED : string;
  (** the members no source file names *)
  others : list string
}.

(** The values of [fields], as [for (let field in fields)] meets them. *)
Definition values (F : fields) : list string :=
  [NAME F; DESCRIPTION F; CATEGORIES F; TAGS F; GOOGLE_ID F; TRELLO_ID F;
   DAYS F; IS_BEGINNER F; MAX_INSTANCES F; LAST_MODIFIED F] ++ others F.

(** [categories]: numbers, since [parseCategories] looks the result of
    [parseInt] up among them. *)
Record categories := {
  DESIGN : Z;
  CODING : Z;
  DOCS_TRAINING : Z;
  OUTRESEARCH : Z;
  QA : Z
}.
End Globals.

(** [config.json]: the ids of the custom fields on the board. *)
Module Config.
Record customFields := {
  isDesign : string;
  isCode : string;
  isDocs : string;
  isOutResearch : string;
  isQa : string;
  tags : string;
  googleId : string;
  days : string;
  isBeginner : string;
  instances : string
}.
End Config.

(** [TrelloApiRequester.js]: the requests [TrelloInterface] sends, and how the
    service answers one. *)
Module Requester.
Import Js.

Inductive request :=
| updateCardMain (cardId : value) (rawMain : value)
| createCard (rawMain : value)
| updateCustomField (cardId : value) (customFieldId : string) (raw : value).

Inductive response :=
| Success (body : value)
| Failure (reason : value).

(** The service: its answer to a request, given the requests sent before. *)
Definition service := list request -> request -> response.
End Requester.

(** ** [Task.js] *)
Module Task.
Import Js Eff Eff.Notations.

Record t := {
  fields : gmap string value;
  googleTaskMade : bool;
  trelloCardMade : bool;
  listCategoryAdded : bool;
  updatedFields : gset string;
  (** the two properties [TaskList.js] puts on the object *)
  googleId : value;
  trelloId : value
}.

Inductive level := Log | Err.

(** What a method call can touch: the task it is called on, the console and
    the requests sent to the remote service so far. *)
Record World := {
  this : t;
  console : list (level * string);
  requests : list Requester.request
}.

Definition with_this (f : t -> t) (w : World) : World :=
  {| this := f (this w); console := console w; requests := requests w |}.

Definition with_fields (f : gmap string value -> gmap string value) (x : t) : t :=
  {| fields := f (fields x);
     googleTaskMade := googleTaskMade x;
     trelloCardMade := trelloCardMade x;
     listCategoryAdded := listCategoryAdded x;
     updatedFields := updatedFields x;
     googleId := googleId x;
     trelloId := trelloId x |}.

Definition with_updatedFields (f : gset string -> gset string) (x : t) : t :=
  {| fields := fields x;
     googleTaskMade := googleTaskMade x;
     trelloCardMade := trelloCardMade x;
     listCategoryAdded := listCategoryAdded x;
     updatedFields := f (updatedFields x);
     googleId := googleId x;
     trelloId := trelloId x |}.

Definition with_listCategoryAdded (b : bool) (x : t) : t :=
  {| fields := fields x;
     googleTaskMade := googleTaskMade x;
     trelloCardMade := trelloCardMade x;
     listCategoryAdded := b;
     updatedFields := updatedFields x;
     googleId := googleId x;
     trelloId := trelloId x |}.

Definition with_trelloCardMade (b : bool) (x : t) : t :=
  {| fields := fields x;
     googleTaskMade := googleTaskMade x;
     trelloCardMade := b;
     listCategoryAdded := listCategoryAdded x;
     updatedFields := updatedFields x;
     googleId := googleId x;
     trelloId := trelloId x |}.

Definition with_googleId (v : value) (x : t) : t :=
  {| fields := fields x;
     googleTaskMade := googleTaskMade x;
     trelloCardMade := trelloCardMade x;
     listCategoryAdded := listCategoryAdded x;
     updatedFields := updatedFields x;
     googleId := v;
     trelloId := trelloId x |}.

Definition with_trelloId (v : value) (x : t) : t :=
  {| fields := fields x;
     googleTaskMade := googleTaskMade x;
     trelloCardMade := trelloCardMade x;
     listCategoryAdded := listCategoryAdded x;
     updatedFields := updatedFields x;
     googleId := googleId x;
     trelloId := v |}.

(** [console.log(msg)] and [console.error(msg)] *)
Definition logged (l : level) (msg : string) (w : World) : World :=
  {| this := this w;
     console := console w ++ [(l, msg)];
     requests := requests w |}.

Definition print (l : level) (msg : string) : M World unit :=
  modify (logged l msg).

Section Methods.
(** [fields] of [Globals.js] and [defaults] of [config.json] *)
Variable F : Globals.fields.
Variable defaults : list (string * value).

(** Every task gets the value that [defaults] holds for a field, not a copy
    of it; the statements below are about one task at a time. *)
Definition constructor : t :=
  let fs := fold_left (fun acc field => <[field := VNull]> acc)
                      (Globals.values F) (∅ : gmap string value) in
  let fs := fold_left (fun acc d => <[d.1 := d.2]> acc) defaults fs in
  {| fields := fs;
     googleTaskMade := false;
     trelloCardMade := false;
     listCategoryAdded := false;
     updatedFields := ∅;
     googleId := VUndefined;
     trelloId := VUndefined |}.

Definition resetUpdatedFields : M World unit :=
  modify (with_this (with_updatedFields (fun _ => ∅))).

Definition wasFieldUpdated (fieldId : string) : M World bool :=
  gets (fun w => bool_decide (fieldId ∈ updatedFields (this w))).

Definition getField (fieldName : string) : M World value :=
  let* fs := gets (fun w => fields (this w)) in
  match fs !! fieldName with
  | Some v => ret v
  | None =>
      throw (NewError ("Attempted to get unknown field '" ++ fieldName ++ "'"))
  end.

Definition setField (fieldName : string) (value : value) : M World unit :=
  let* fs := gets (fun w => fields (this w)) in
  if bool_decide (is_Some (fs !! fieldName)) then
    modify (with_this (fun x =>
      with_updatedFields (fun u => {[fieldName]} ∪ u)
        (with_fields (fun fs => <[fieldName := value]> fs) x)))
  else
    throw (NewError ("Attempted to set unknown field '" ++ fieldName
                  ++ "' to value '" ++ to_string value ++ "'")).

(** The test guarding the write in [setIfData]: [true] where the source
    returns without writing.  [Object.keys] is reached for every value of
    type object that is not an empty array, [null] included. *)
Definition isNothing (value : value) : M World bool :=
  match typeof value with
  | TUndefined => ret true
  | TObject =>
      let* emptyArray :=
        if isArray value then
          let* len := lift (get value "length") in
          ret (strict_eq len (VNum 0))
        else ret false in
      if emptyArray then ret true
      else
        let* ks := lift (keys value) in
        if strict_eq (VNum (Z.of_nat (length ks))) (VNum 0) then ret true
        else ret (loose_eq_null value)
  | TString => ret (strict_eq value (VStr ""))
  | _ => ret false
  end.

Definition setIfData (fieldName : string) (value : value) : M World unit :=
  let* current := getField fieldName in
  let* nothing :=
    if negb (strict_eq current VNull) then isNothing value else ret false in
  if nothing then ret tt else setField fieldName value.

(** [this.fields[fieldName]], read without the check of [getField]. *)
Definition stored (fieldName : string) : M World value :=
  gets (fun w => default VUndefined (fields (this w) !! fieldName)).

(** The field table is the store of the task.  What [this.fields[f]] and
    [getField(f)] give for an array is the array held by the field, not a
    copy: [push], [splice] and [pop] called on it change what the field
    holds, whichever variable it was reached through, and they do not go
    through [setField]. *)
Definition mutated (fieldName : string) (elems : list value) : M World unit :=
  modify (with_this (with_fields (fun fs => <[fieldName := VArr elems]> fs))).

(** [receiver.indexOf(v)] for what a field may hold; strings have an
    [indexOf] of their own. *)
Definition indexOf_of (receiver v : value) : M World (option nat) :=
  match receiver with
  | VArr elems => ret (indexOf elems v)
  | VStr s => ret (String.index 0 (to_string v) s)
  | VUndefined | VNull =>
      throw (TypeError "Cannot read properties of undefined or null")
  | _ => throw (TypeError "indexOf is not a function")
  end.

Definition addCategory (category : value) : M World unit :=
  let* categories := stored (Globals.CATEGORIES F) in
  let* i := indexOf_of categories category in
  match i with
  | None =>
      match categories with
      | VArr elems => mutated (Globals.CATEGORIES F) (elems ++ [category])
      | _ => throw (TypeError "push is not a function")
      end
  | Some _ => ret tt
  end.

Definition removeCategory (category : value) : M World unit :=
  let* categories := stored (Globals.CATEGORIES F) in
  let* i := indexOf_of categories category in
  match i with
  | Some i =>
      match categories with
      | VArr elems => mutated (Globals.CATEGORIES F) (splice1 i elems)
      | _ => throw (TypeError "splice is not a function")
      end
  | None =>
      let* name := getField (Globals.NAME F) in
      let* gid := getField (Globals.GOOGLE_ID F) in
      print Err ("Attempted to remove a task '" ++ to_string name ++ "'("
                 ++ to_string gid ++ ") from a category it wasn't in.")
  end.


End Methods.

(** The world [setField] leaves when the field is known. *)
Definition written (f : string) (v : value) (w : World) : World :=
  with_this (fun x =>
    with_updatedFields (fun u => {[f]} ∪ u)
      (with_fields (fun fs => <[f := v]> fs) x)) w.

(** The empty values of the description of [setIfData]: [undefined], the
    empty string, the empty list and the empty dict. *)
Definition nothing (v : value) : bool :=
  match v with
  | VUndefined | VStr "" | VArr [] | VObj [] => true
  | _ => false
  end.

(** A computation that leaves the world as it found it. *)
Definition reads {A : Type} (m : M World A) : Prop :=
  forall w, (m w).2 = w.

(** A computation that leaves the task and the requests as it found them;
    it may write to the console. *)
Definition quiet {A : Type} (m : M World A) : Prop :=
  forall w, this (m w).2 = this w /\ requests (m w).2 = requests w.
End Task.

(** ** [TaskList.js] *)
Module TaskList.
Import Js.

(** A task object is known by its reference: its place among the objects
    [new Task()] has made so far. *)
Abbreviation ref := nat (only parsing).

Record t := {
  tasks : list ref;
  boardId : value;
  categoryLists : value
}.

(** The task objects made so far and the list itself. *)
Record World := {
  heap : list Task.t;
  this : t
}.

(** The two kinds of id a task is looked up by, and the property of the
    task that holds each. *)
Inductive namespace := Google | Trello.

Definition idOf (ns : namespace) (x : Task.t) : value :=
  match ns with
  | Google => Task.googleId x
  | Trello => Task.trelloId x
  end.

Definition withId (ns : namespace) (id : value) (x : Task.t) : Task.t :=
  match ns with
  | Google => Task.with_googleId id x
  | Trello => Task.with_trelloId id x
  end.

Section Methods.
Variable F : Globals.fields.
Variable defaults : list (string * value).
(** [boardId] and [categoryLists] of [trelloIds.json] *)
Variable trelloIds : value * value.

Definition constructor : t :=
  {| tasks := []; boardId := trelloIds.1; categoryLists := trelloIds.2 |}.

(** [this.tasks.push(new Task())] *)
Definition push_new_Task (w : World) : World :=
  {| heap := heap w ++ [Task.constructor F defaults];
     this := {| tasks := tasks (this w) ++ [length (heap w)];
                boardId := boardId (this w);
                categoryLists := categoryLists (this w) |} |}.

(** [this.tasks[index].p = v], for the property written by [set] *)
Definition assign_at (index : nat) (set : Task.t -> Task.t) (w : World) : World :=
  match tasks (this w) !! index with
  | Some r => {| heap := alter set r (heap w); this := this w |}
  | None => w
  end.

(** The callbacks of [findIndex]: [data.googleId === id] and
    [data.trelloId === id], [data] being the object behind a reference. *)
Definition hasGoogleId (w : World) (id : value) (r : ref) : bool :=
  match heap w !! r with
  | Some data => strict_eq (Task.googleId data) id
  | None => false
  end.

Definition hasTrelloId (w : World) (id : value) (r : ref) : bool :=
  match heap w !! r with
  | Some data => strict_eq (Task.trelloId data) id
  | None => false
  end.

Definition getTaskFromGoogle (id : value) (w : World) : option ref * World :=
  let index := findIndex (hasGoogleId w id) (tasks (this w)) in
  let '(index, w) :=
    match index with
    | None =>
        let w := push_new_Task w in
        let index := (length (tasks (this w)) - 1)%nat in
        (index, assign_at index (Task.with_googleId id) w)
    | Some index => (index, w)
    end in
  (tasks (this w) !! index, w).

Definition getTaskFromTrello (id : value) (w : World) : option ref * World :=
  let index := findIndex (hasTrelloId w id) (tasks (this w)) in
  let '(index, w) :=
    match index with
    | None =>
        let w := push_new_Task w in
        let index := (length (tasks (this w)) - 1)%nat in
        (index, assign_at index (Task.with_trelloId id) w)
    | Some index => (index, w)
    end in
  (tasks (this w) !! index, w).

(** A call of one of the two, by the kind of id it is given. *)
Inductive lookup :=
| FromGoogle (id : value)
| FromTrello (id : value).

Definition run (c : lookup) : World -> option ref * World :=
  match c with
  | FromGoogle id => getTaskFromGoogle id
  | FromTrello id => getTaskFromTrello id
  end.

Definition target (c : lookup) : namespace * value :=
  match c with
  | FromGoogle id => (Google, id)
  | FromTrello id => (Trello, id)
  end.

(** The callback of either [findIndex]. *)
Definition hasId (ns : namespace) (w : World) (id : value) (r : ref) : bool :=
  match ns with
  | Google => hasGoogleId w id r
  | Trello => hasTrelloId w id r
  end.

(** The world after a task is made for an id. *)
Definition made (ns : namespace) (id : value) (w : World) : World :=
  {| heap := heap w ++ [withId ns id (Task.constructor F defaults)];
     this := {| tasks := tasks (this w) ++ [length (heap w)];
                boardId := boardId (this w);
                categoryLists := categoryLists (this w) |} |}.

(** Whether the list already has a task for the id of the call. *)
Definition known (c : lookup) (w : World) : bool :=
  match c with
  | FromGoogle id =>
      bool_decide (is_Some (findIndex (hasGoogleId w id) (tasks (this w))))
  | FromTrello id =>
      bool_decide (is_Some (findIndex (hasTrelloId w id) (tasks (this w))))
  end.

(** The list as the module exports it, before any task is made. *)
Definition initial : World := {| heap := []; this := constructor |}.

Definition run_all (calls : list lookup) (w : World) : World :=
  fold_left (fun w c => (run c w).2) calls w.
End Methods.

(** Ids are strings (Trello) and numbers (Google). *)
Definition isId (v : value) : Prop :=
  match v with
  | VStr _ | VNum _ => True
  | _ => False
  end.

Definition valid (c : lookup) : Prop :=
  match c with
  | FromGoogle id | FromTrello id => isId id
  end.

(** Every task is listed once, and no two listed tasks have the same Google
    id or the same Trello id. *)
Definition atMostOne (w : World) : Prop :=
  NoDup (tasks (this w))
  /\ forall (r r' : ref) (x x' : Task.t),
       r ∈ tasks (this w) -> r' ∈ tasks (this w) ->
       heap w !! r = Some x -> heap w !! r' = Some x' ->
       (isId (Task.googleId x) -> Task.googleId x = Task.googleId x' -> r = r')
       /\ (isId (Task.trelloId x) -> Task.trelloId x = Task.trelloId x' -> r = r').

(** Every listed reference is that of a task made earlier. *)
Definition allocated (w : World) : Prop :=
  forall r, r ∈ tasks (this w) -> (r < length (heap w))%nat.
End TaskList.

(** ** [TrelloInterface.js] *)
Module TrelloInterface.
Import Js Eff Eff.Notations.
Import Task (World, this, console, requests, getField, setField, setIfData).

(** *** The value codecs *)

Definition customFieldToValue (field : value) : result value :=
  if truthy field then
    let+ v := get field "value" in
    if strict_eq v VNull then Ok (VBool false)
    else
      let+ checked := has_property "checked" v in
      if checked then
        let+ c := get v "checked" in
        Ok (VBool (strict_eq c (VStr "true")))
      else
        let+ number := has_property "number" v in
        if number then
          let+ n := get v "number" in
          let _ := parseInt (to_string n) in
          Ok VUndefined
        else
          let+ text := has_property "text" v in
          if text then get v "text"
          else Throw (TypeError ("Custom field contains unknown value type: "
                                 ++ to_string field))
  else Ok VUndefined.

Definition valueToCustomField (value : value) : result Js.value :=
  match typeof value with
  | TBoolean => Ok (VObj [("value", VObj [("checked", VStr (to_string value))])])
  | TString => Ok (VObj [("value", VObj [("text", VStr (to_string value))])])
  | TNumber => Ok (VObj [("value", VObj [("number", VStr (to_string value))])])
  | ty => Throw (TypeError ("Unsupported type for trello custom field: "
                            ++ type_name ty))
  end.

Definition getCustomFieldFromData (fieldId : string) (data : value)
  : result value :=
  let+ present := has_property "customFieldItems" data in
  if present then
    let+ items := get data "customFieldItems" in
    match items with
    | VArr items =>
        let+ field :=
          find (fun checkField =>
                  let+ id := get checkField "idCustomField" in
                  Ok (strict_eq id (VStr fieldId))) items in
        customFieldToValue (default VUndefined field)
    | VUndefined | VNull =>
        Throw (TypeError "Cannot read properties of undefined or null")
    | _ => Throw (TypeError "find is not a function")
    end
  else Ok VUndefined.

Section Interface.
Variable F : Globals.fields.
Variable categories : Globals.categories.
(** [categoryLists] and [customFields] of [config.json]; the former as
    [Object.keys] enumerates it. *)
Variable categoryLists : list (string * value).
Variable customFields : Config.customFields.
Variable service : Requester.service.

(** A call of the requester: the request is sent and the service answers. *)
Definition sent (req : Requester.request) (w : World) : World :=
  {| this := this w;
     console := console w;
     requests := requests w ++ [req] |}.

Definition send (req : Requester.request) : M World Requester.response :=
  fun w => (Ok (service (requests w) req), sent req w).

Definition getCustomFieldFromTask (fieldId : string) : M World value :=
  let* v := getField fieldId in
  lift (valueToCustomField v).

(** The properties of the object [mainToRaw] builds. *)
Definition mainToRaw : M World (list (string * value)) :=
  let rawMain := [] in
  let* id := getField (Globals.TRELLO_ID F) in
  let rawMain := set_prop "id" id rawMain in
  let* desc := getField (Globals.DESCRIPTION F) in
  let rawMain := set_prop "desc" desc rawMain in
  let* name := getField (Globals.NAME F) in
  let rawMain := set_prop "name" name rawMain in
  ret rawMain.

Definition serialiseTags : M World value :=
  let* tags := getField (Globals.TAGS F) in
  match tags with
  | VArr tags => ret (VObj [("value", VObj [("text", VStr (join ", " tags))])])
  | VUndefined | VNull =>
      throw (TypeError "Cannot read properties of undefined or null")
  | _ => throw (TypeError "join is not a function")
  end.

(** [receiver.includes(v)] for what a field may hold; strings have an
    [includes] of their own. *)
Definition includes_of (receiver v : value) : M World bool :=
  match receiver with
  | VArr elems => ret (includes elems v)
  | VStr s => ret (bool_decide (is_Some (String.index 0 (to_string v) s)))
  | VUndefined | VNull =>
      throw (TypeError "Cannot read properties of undefined or null")
  | _ => throw (TypeError "includes is not a function")
  end.

Definition checkbox (b : bool) : value :=
  if b then VObj [("value", VObj [("checked", VStr "true")])]
  else VObj [("value", VStr "")].

(** The properties of the object [serialiseCategories] builds. *)
Definition serialiseCategories : M World (list (string * value)) :=
  let result := [] in
  let* taskCategories := getField (Globals.CATEGORIES F) in
  let* c := includes_of taskCategories (VNum (Globals.CODING categories)) in
  let result := set_prop (Config.isCode customFields) (checkbox c) result in
  let* c := includes_of taskCategories (VNum (Globals.QA categories)) in
  let result := set_prop (Config.isQa customFields) (checkbox c) result in
  let* c := includes_of taskCategories (VNum (Globals.OUTRESEARCH categories)) in
  let result := set_prop (Config.isOutResearch customFields) (checkbox c) result in
  let* c := includes_of taskCategories (VNum (Globals.DOCS_TRAINING categories)) in
  let result := set_prop (Config.isDocs customFields) (checkbox c) result in
  let* c := includes_of taskCategories (VNum (Globals.DESIGN categories)) in
  let result := set_prop (Config.isDesign customFields) (checkbox c) result in
  ret result.

Definition customToRaw : M World (list (string * value)) :=
  let* rawCustom := serialiseCategories in
  let* v := serialiseTags in
  let rawCustom := set_prop (Config.tags customFields) v rawCustom in
  let* v := getCustomFieldFromTask (Globals.GOOGLE_ID F) in
  let rawCustom := set_prop (Config.googleId customFields) v rawCustom in
  let* v := getCustomFieldFromTask (Globals.DAYS F) in
  let rawCustom := set_prop (Config.days customFields) v rawCustom in
  let* v := getCustomFieldFromTask (Globals.IS_BEGINNER F) in
  let rawCustom := set_prop (Config.isBeginner customFields) v rawCustom in
  let* v := getCustomFieldFromTask (Globals.MAX_INSTANCES F) in
  let rawCustom := set_prop (Config.instances customFields) v rawCustom in
  ret rawCustom.

(** The loop of [_updateAllFields]: one request per custom field, in the
    order the fields were staged (custom field ids are not array indices, so
    [for ... in] follows insertion), each awaited before the next is sent. *)
Fixpoint updateEach (cardId : value) (rawCustomFields : list (string * value))
  : M World unit :=
  match rawCustomFields with
  | [] => ret tt
  | (customFieldId, raw) :: rest =>
      let* answer := send (Requester.updateCustomField cardId customFieldId raw) in
      match answer with
      | Requester.Success _ => updateEach cardId rest
      | Requester.Failure reason => throw (Rejection reason)
      end
  end.

Definition _updateAllFields (cardId : value)
  (rawCustomFields : list (string * value)) : M World settled :=
  settle (let* _ := updateEach cardId rawCustomFields in
          ret (Fulfilled VUndefined)).

(** [cardCategories.pop()], where [cardCategories] is what
    [getField(fields.CATEGORIES)] returned: the stored array itself. *)
Definition pop (fieldName : string) (receiver : value) : M World value :=
  match receiver with
  | VArr elems =>
      let* _ := Task.mutated fieldName (removelast elems) in
      ret (default VUndefined (last elems))
  | _ => throw (TypeError "pop is not a function")
  end.

(** The world after that [pop], when there was something to pop. *)
Definition popped (cardCategories : list value) (w : World) : World :=
  match cardCategories with
  | [] => w
  | _ => (Task.mutated (Globals.CATEGORIES F) (removelast cardCategories) w).2
  end.

Definition createCard : M World settled :=
  let* cardCategories := getField (Globals.CATEGORIES F) in
  let listId := default VUndefined (lookup_prop "1" categoryLists) in
  let* len := lift (get cardCategories "length") in
  let* listId :=
    if negb (strict_eq len (VNum 0)) then
      let* category := pop (Globals.CATEGORIES F) cardCategories in
      let* key := lift (toString category) in
      ret (default VUndefined (lookup_prop key categoryLists))
    else ret listId in
  let* rawMain := mainToRaw in
  let rawMain := delete_prop "id" rawMain in
  let rawMain := set_prop "idList" listId rawMain in
  let* answer := send (Requester.createCard (VObj rawMain)) in
  match answer with
  | Requester.Success response =>
      settle (let* id := lift (get response "id") in
              let* _ := setField (Globals.TRELLO_ID F) id in
              ret (Fulfilled response))
  | Requester.Failure reason => ret (Rejected (Rejection reason))
  end.

Definition writeOrCreate : M World settled :=
  let* id := getField (Globals.TRELLO_ID F) in
  if truthy id then
    let* id := getField (Globals.TRELLO_ID F) in
    let* rawMain := mainToRaw in
    let* answer := send (Requester.updateCardMain id (VObj rawMain)) in
    match answer with
    | Requester.Success response => ret (Fulfilled response)
    | Requester.Failure reason =>
        settle (let* statusCode := lift (get reason "statusCode") in
                if strict_eq statusCode (VNum 404) then
                  let* name := getField (Globals.NAME F) in
                  let* _ := Task.print Task.Log
                              ("Updating card '" ++ to_string name
                               ++ "' failed. Creating new card") in
                  createCard
                else ret (Fulfilled VUndefined))
    end
  else createCard.

(** *** Reading the categories of a card *)

(** The set [parseCategories] collects before it writes it to the task:
    the categories whose custom field is set, then the category of the list
    the card is in. *)
Definition taskCategories (rawCard : value) : M World (list value) :=
  let taskCategories := [] in
  let* checked := lift (getCustomFieldFromData (Config.isDesign customFields) rawCard) in
  let taskCategories :=
    if truthy checked
    then set_add taskCategories (VNum (Globals.DESIGN categories))
    else taskCategories in
  let* checked := lift (getCustomFieldFromData (Config.isCode customFields) rawCard) in
  let taskCategories :=
    if truthy checked
    then set_add taskCategories (VNum (Globals.CODING categories))
    else taskCategories in
  let* checked := lift (getCustomFieldFromData (Config.isDocs customFields) rawCard) in
  let taskCategories :=
    if truthy checked
    then set_add taskCategories (VNum (Globals.DOCS_TRAINING categories))
    else taskCategories in
  let* checked := lift (getCustomFieldFromData (Config.isOutResearch customFields) rawCard) in
  let taskCategories :=
    if truthy checked
    then set_add taskCategories (VNum (Globals.OUTRESEARCH categories))
    else taskCategories in
  let* checked := lift (getCustomFieldFromData (Config.isQa customFields) rawCard) in
  let taskCategories :=
    if truthy checked
    then set_add taskCategories (VNum (Globals.QA categories))
    else taskCategories in
  let* listId :=
    lift (find (fun key =>
                  let+ idList := get rawCard "idList" in
                  Ok (strict_eq (default VUndefined (lookup_prop key categoryLists))
                                idList))
               (map fst categoryLists)) in
  match listId with
  | Some listId =>
      let listId := parseInt listId in
      if negb (set_has taskCategories listId) then
        let* _ := modify (Task.with_this (Task.with_listCategoryAdded true)) in
        ret (set_add taskCategories listId)
      else ret taskCategories
  | None =>
      let* name := lift (get rawCard "name") in
      let* id := lift (get rawCard "id") in
      let* _ := Task.print Task.Err
                  ("Card '" ++ to_string name ++ "' (" ++ to_string id
                   ++ ") is not in a category list.") in
      ret taskCategories
  end.

(** The set after the five tests, from what the five custom fields read as. *)
Definition checkedCategories (design code docs outResearch qa : value)
  : list value :=
  let s := [] in
  let s := if truthy design
           then set_add s (VNum (Globals.DESIGN categories)) else s in
  let s := if truthy code
           then set_add s (VNum (Globals.CODING categories)) else s in
  let s := if truthy docs
           then set_add s (VNum (Globals.DOCS_TRAINING categories)) else s in
  let s := if truthy outResearch
           then set_add s (VNum (Globals.OUTRESEARCH categories)) else s in
  let s := if truthy qa
           then set_add s (VNum (Globals.QA categories)) else s in
  s.

(** A custom field of the board that is a checkbox reads as a boolean, or
    as [undefined] on a card that has no item for it. *)
Definition boolean (fieldId : string) (rawCard : value) : Prop :=
  exists d, getCustomFieldFromData fieldId rawCard = Ok d
            /\ (d = VUndefined \/ exists b, d = VBool b).

(** The five category fields of a card are checkboxes. *)
Definition booleanFields (rawCard : value) : Prop :=
  boolean (Config.isDesign customFields) rawCard
  /\ boolean (Config.isCode customFields) rawCard
  /\ boolean (Config.isDocs customFields) rawCard
  /\ boolean (Config.isOutResearch customFields) rawCard
  /\ boolean (Config.isQa customFields) rawCard.

Definition checked (fieldId : string) (rawCard : value) : Prop :=
  getCustomFieldFromData fieldId rawCard = Ok (VBool true).

(** [c] is a category whose own custom field is checked on the card. *)
Definition explicitCategory (rawCard : value) (c : value) : Prop :=
  (checked (Config.isDesign customFields) rawCard
   /\ c = VNum (Globals.DESIGN categories))
  \/ (checked (Config.isCode customFields) rawCard
      /\ c = VNum (Globals.CODING categories))
  \/ (checked (Config.isDocs customFields) rawCard
      /\ c = VNum (Globals.DOCS_TRAINING categories))
  \/ (checked (Config.isOutResearch customFields) rawCard
      /\ c = VNum (Globals.OUTRESEARCH categories))
  \/ (checked (Config.isQa customFields) rawCard
      /\ c = VNum (Globals.QA categories)).

(** The category of a list: the number of the first entry of
    [categoryLists] that names the list, if there is one. *)
Definition listCategory (idList : value) : option value :=
  parseInt <$>
    List.find (fun key =>
                 strict_eq (default VUndefined (lookup_prop key categoryLists))
                           idList)
              (map fst categoryLists).

Definition parseCategories (rawCard : value) : M World unit :=
  let* taskCategories := taskCategories rawCard in
  setIfData (Globals.CATEGORIES F) (VArr taskCategories).

(** *** Writing the fields that changed *)

(** One turn of the loop of [writeFields]. *)
Definition writeField (alteredField : string) (rawCustom : list (string * value))
  : M World (list (string * value)) :=
  if String.eqb alteredField (Globals.NAME F)
     || String.eqb alteredField (Globals.DESCRIPTION F) then
    let* _ := await writeOrCreate in
    ret rawCustom
  else if String.eqb alteredField (Globals.CATEGORIES F) then
    let* cs := serialiseCategories in
    ret (assign rawCustom cs)
  else if String.eqb alteredField (Globals.TAGS F) then
    let* v := serialiseTags in
    ret (set_prop (Config.tags customFields) v rawCustom)
  else if String.eqb alteredField (Globals.GOOGLE_ID F) then
    let* v := getCustomFieldFromTask (Globals.GOOGLE_ID F) in
    ret (set_prop (Config.googleId customFields) v rawCustom)
  else if String.eqb alteredField (Globals.DAYS F) then
    let* v := getCustomFieldFromTask (Globals.GOOGLE_ID F) in
    ret (set_prop (Config.days customFields) v rawCustom)
  else if String.eqb alteredField (Globals.IS_BEGINNER F) then
    let* v := getCustomFieldFromTask (Globals.GOOGLE_ID F) in
    ret (set_prop (Config.isBeginner customFields) v rawCustom)
  else if String.eqb alteredField (Globals.MAX_INSTANCES F) then
    let* v := getCustomFieldFromTask (Globals.GOOGLE_ID F) in
    ret (set_prop (Config.instances customFields) v rawCustom)
  else
    let* _ := Task.print Task.Log
                ("Attempted to write field to trello that can't be: '"
                 ++ alteredField ++ "'") in
    ret rawCustom.

Fixpoint writeEach (alteredFields : list string) (rawCustom : list (string * value))
  : M World (list (string * value)) :=
  match alteredFields with
  | [] => ret rawCustom
  | alteredField :: rest =>
      let* rawCustom := writeField alteredField rawCustom in
      writeEach rest rawCustom
  end.

Definition writeFields (alteredFields : list string) : M World settled :=
  settle (let* rawCustom := writeEach alteredFields [] in
          let* id := getField (Globals.TRELLO_ID F) in
          let* _ := await (_updateAllFields id rawCustom) in
          ret (Fulfilled VUndefined)).

(** *** The other methods of the interface *)


Definition updateOtherId : M World settled :=
  let* id := getField (Globals.TRELLO_ID F) in
  let* raw := getCustomFieldFromTask (Globals.GOOGLE_ID F) in
  let* answer := send (Requester.updateCustomField id
                         (Config.googleId customFields) raw) in
  match answer with
  | Requester.Success body => ret (Fulfilled body)
  | Requester.Failure reason => ret (Rejected (Rejection reason))
  end.

(** How the promise of [writeTask] settles; fulfilled, it carries the task
    that was written, the one the world holds. *)
Inductive writing :=
| Written
| NotWritten (e : error).

Definition writeTask : M World writing :=
  let* _ := Task.resetUpdatedFields in
  let* rawCustomFields := customToRaw in
  let* p := writeOrCreate in
  match p with
  | Rejected e => ret (NotWritten e)
  | Fulfilled _ =>
      let* p := settle (let* id := getField (Globals.TRELLO_ID F) in
                        _updateAllFields id rawCustomFields) in
      match p with
      | Rejected e => ret (NotWritten e)
      | Fulfilled _ =>
          fun w =>
            match
              (let* made := Task.wasFieldUpdated (Globals.TRELLO_ID F) in
               let* name := getField (Globals.NAME F) in
               if made then
                 let* _ := Task.print Task.Log
                             ("Card '" ++ to_string name
                              ++ "' created on Trello") in
                 modify (Task.with_this (Task.with_trelloCardMade true))
               else
                 let* _ := Task.print Task.Log
                             ("Card '" ++ to_string name
                              ++ "' updated on Trello") in
                 modify (Task.with_this (Task.with_trelloCardMade false))) w
            with
            | (Ok _, w') => (Ok Written, w')
            | (Throw e, w') => (Ok (NotWritten e), w')
            end
      end
  end.

(** The value of [doesTaskMatchData]: that of the expression it returns,
    which is a boolean or the falsy Google id of the card. *)
Definition doesTaskMatchData (data : value) : M World value :=
  let* googleId := lift (getCustomFieldFromData (Config.googleId customFields) data) in
  let* trelloId := getField (Globals.TRELLO_ID F) in
  let* id := lift (get data "id") in
  if strict_eq trelloId id then ret (VBool true)
  else if truthy googleId then
    let* ownGoogleId := getField (Globals.GOOGLE_ID F) in
    ret (VBool (strict_eq ownGoogleId googleId))
  else ret googleId.

Definition parseTags (rawCard : value) : result (list value) :=
  let+ tagString := getCustomFieldFromData (Config.tags customFields) rawCard in
  if negb (strict_eq tagString VUndefined)
     && negb (strict_eq tagString (VStr "")) then
    match tagString with
    | VStr s => Ok (map (fun str => VStr (trim str)) (split "," s))
    | VNull => Throw (TypeError "Cannot read properties of undefined or null")
    | _ => Throw (TypeError "split is not a function")
    end
  else Ok [].

Definition loadIntoTask (rawCard : value) : M World unit :=
  let* v := lift (get rawCard "id") in
  let* _ := setIfData (Globals.TRELLO_ID F) v in
  let* v := lift (get rawCard "desc") in
  let* _ := setIfData (Globals.DESCRIPTION F) v in
  let* v := lift (get rawCard "name") in
  let* _ := setIfData (Globals.NAME F) v in
  let* v := lift (getCustomFieldFromData (Config.googleId customFields) rawCard) in
  let* _ := setIfData (Globals.GOOGLE_ID F) v in
  let* v := lift (getCustomFieldFromData (Config.days customFields) rawCard) in
  let* _ := setIfData (Globals.DAYS F) v in
  let* v := lift (getCustomFieldFromData (Config.isBeginner customFields) rawCard) in
  let* _ := setIfData (Globals.IS_BEGINNER F) v in
  let* v := lift (getCustomFieldFromData (Config.instances customFields) rawCard) in
  let* _ := setIfData (Globals.MAX_INSTANCES F) v in
  let* _ := parseCategories rawCard in
  let* tags := lift (parseTags rawCard) in
  let* _ := setIfData (Globals.TAGS F) (VArr tags) in
  let* v := lift (get rawCard "dateLastActivity") in
  setIfData (Globals.LAST_MODIFIED F) v.

(** The requests that update the custom fields given, for one card. *)
Definition updates (cardId : value) (raw : list (string * value))
  : list Requester.request :=
  map (fun kv => Requester.updateCustomField cardId kv.1 kv.2) raw.

(** The world after the requests given were sent, in order. *)
Definition sentAll (reqs : list Requester.request) (w : World) : World :=
  {| this := this w; console := console w;
     requests := (requests w ++ reqs)%list |}.

(** The fields [writeFields] sends with the main section of the card. *)
Definition mainField (f : string) : bool :=
  String.eqb f (Globals.NAME F) || String.eqb f (Globals.DESCRIPTION F).

(** What [setIfData] may put in the place of a value that is not [null]:
    that value again, or data. *)
Definition kept (v v' : value) : Prop :=
  v' = v \/ (v' <> VNull /\ Task.nothing v' = false).

(** How a world may differ from an earlier one after values were offered
    with [setIfData] to the fields listed. *)
Definition loaded (offered : list string) (w w' : World) : Prop :=
  requests w' = requests w
  /\ Task.updatedFields (this w) ⊆ Task.updatedFields (this w')
  /\ (forall g, g ∉ Task.updatedFields (this w') ->
        Task.fields (this w') !! g = Task.fields (this w) !! g)
  /\ (forall g, g ∉ offered ->
        Task.fields (this w') !! g = Task.fields (this w) !! g
        /\ (g ∈ Task.updatedFields (this w') -> g ∈ Task.updatedFields (this w)))
  /\ (forall g, is_Some (Task.fields (this w') !! g)
               <-> is_Some (Task.fields (this w) !! g))
  /\ (forall g v, Task.fields (this w) !! g = Some v -> v <> VNull ->
        exists v', Task.fields (this w') !! g = Some v' /\ kept v v').

Definition loads {A : Type} (offered : list string) (m : M World A) : Prop :=
  forall w, loaded offered w (m w).2.

(** The fields [loadIntoTask] offers values to. *)
Definition loadedFields : list string :=
  [Globals.TRELLO_ID F; Globals.DESCRIPTION F; Globals.NAME F;
   Globals.GOOGLE_ID F; Globals.DAYS F; Globals.IS_BEGINNER F;
   Globals.MAX_INSTANCES F; Globals.CATEGORIES F; Globals.TAGS F;
   Globals.LAST_MODIFIED F].

(** A tag that survives the way to the board and back: it has no comma and
    no white space at either end, and its characters are ASCII, among which
    the white space of [trim] is that of [is_space]. *)
Definition clean (tag : string) : Prop :=
  split "," tag = [tag]
  /\ trim tag = tag
  /\ forallb (fun c => Nat.ltb (nat_of_ascii c) 128)
       (String.list_ascii_of_string tag) = true.

(** An item of a card that is not for the custom field given. *)
Definition otherItem (fieldId : string) (item : value) : Prop :=
  exists props,
    item = VObj props
    /\ strict_eq (default VUndefined (lookup_prop "idCustomField" props))
                 (VStr fieldId) = false.

(** An item of a card that is for the custom field given. *)
Definition itemFor (fieldId : string) (item : value) : Prop :=
  exists props,
    item = VObj props
    /\ lookup_prop "idCustomField" props = Some (VStr fieldId).
End Interface.
End TrelloInterface.

(** ** A concrete configuration and concrete tasks, for the examples *)
Module Sample.
Import Js.

Definition F : Globals.fields :=
  {| Globals.NAME := "name";
     Globals.DESCRIPTION := "description";
     Globals.CATEGORIES := "categories";
     Globals.TAGS := "tags";
     Globals.GOOGLE_ID := "googleId";
     Globals.TRELLO_ID := "trelloId";
     Globals.DAYS := "days";
     Globals.IS_BEGINNER := "isBeginner";
     Globals.MAX_INSTANCES := "maxInstances";
     Globals.LAST_MODIFIED := "lastModified";
     Globals.others := ["status"; "mentors"; "externalUrl"] |}.

Definition categories : Globals.categories :=
  {| Globals.CODING := 1;
     Globals.DESIGN := 2;
     Globals.DOCS_TRAINING := 3;
     Globals.QA := 4;
     Globals.OUTRESEARCH := 5 |}.

Definition categoryLists : list (string * value) :=
  [("1", VStr "list-coding"); ("2", VStr "list-design");
   ("3", VStr "list-docs"); ("4", VStr "list-qa");
   ("5", VStr "list-outresearch")].

Definition customFields : Config.customFields :=
  {| Config.isDesign := "cf-design";
     Config.isCode := "cf-code";
     Config.isDocs := "cf-docs";
     Config.isOutResearch := "cf-outresearch";
     Config.isQa := "cf-qa";
     Config.tags := "cf-tags";
     Config.googleId := "cf-google-id";
     Config.days := "cf-days";
     Config.isBeginner := "cf-beginner";
     Config.instances := "cf-instances" |}.

Definition defaults : list (string * value) :=
  [("categories", VArr []); ("tags", VArr [])].

(** A task as [new Task()] makes it, then given some field values. *)
Definition task (values : list (string * value)) : Task.t :=
  Task.with_fields
    (fun fs => fold_left (fun acc kv => <[kv.1 := kv.2]> acc) values fs)
    (Task.constructor F defaults).

(** A task that has a card on the board, and the same task without one. *)
Definition linked : Task.t :=
  task [("name", VStr "x"); ("description", VStr "d");
        ("trelloId", VStr "abc"); ("categories", VArr [VNum 1; VNum 2])].

Definition unlinked : Task.t :=
  task [("name", VStr "x"); ("description", VStr "d");
        ("categories", VArr [VNum 1; VNum 2])].

(** A task of three days, known to Google as ["g1"]. *)
Definition dated : Task.t :=
  task [("googleId", VStr "g1"); ("days", VNum 3); ("trelloId", VStr "abc");
        ("isBeginner", VBool false); ("maxInstances", VNum 1)].

Definition world (x : Task.t) : Task.World :=
  {| Task.this := x; Task.console := []; Task.requests := [] |}.

(** A service on which every request succeeds, creation returning a card
    with id ["card-1"]. *)
Definition accepting : Requester.service :=
  fun _ req =>
    match req with
    | Requester.createCard _ => Requester.Success (VObj [("id", VStr "card-1")])
    | _ => Requester.Success (VObj [])
    end.

(** A service on which updating the main fields of a card fails with the
    given status code. *)
Definition failing (statusCode : Z) : Requester.service :=
  fun _ req =>
    match req with
    | Requester.updateCardMain _ _ =>
        Requester.Failure (VObj [("statusCode", VNum statusCode)])
    | Requester.createCard _ => Requester.Success (VObj [("id", VStr "card-1")])
    | _ => Requester.Success (VObj [])
    end.

(** A card: its list and its custom field items. *)
Definition card (idList : string) (items : list value) : value :=
  VObj [("id", VStr "card-0"); ("name", VStr "A card");
        ("idList", VStr idList); ("customFieldItems", VArr items)].

Definition item (idCustomField : string) (v : value) : value :=
  VObj [("idCustomField", VStr idCustomField); ("value", v)].
End Sample.

(** ** Properties of [Task.js] *)
Section TaskProperties.
Import Js Eff Eff.Notations Task.

Lemma getField_known (w : World) (f : string) (v : value) :
  fields (this w) !! f = Some v -> getField f w = (Ok v, w).
Proof. intros H. unfold getField, bind, gets, ret. by rewrite H. Qed.

Lemma getField_unknown (w : World) (f : string) :
  fields (this w) !! f = None ->
  getField f w
  = (Throw (NewError ("Attempted to get unknown field '" ++ f ++ "'")), w).
Proof. intros H. unfold getField, bind, gets, throw. by rewrite H. Qed.

Lemma setField_known (w : World) (f : string) (v : value) :
  is_Some (fields (this w) !! f) -> setField f v w = (Ok tt, written f v w).
Proof.
  intros H. unfold setField, bind, gets, modify.
  by rewrite bool_decide_eq_true_2.
Qed.

Lemma setField_unknown (w : World) (f : string) (v : value) :
  fields (this w) !! f = None ->
  exists e, setField f v w = (Throw e, w).
Proof.
  intros H. unfold setField, bind, gets, throw.
  rewrite bool_decide_eq_false_2; [eauto |].
  rewrite H. by intros [? ?].
Qed.

(** [getField] only reads. *)
Lemma getField_pure (f : string) (w : World) : (getField f w).2 = w.
Proof.
  unfold getField, bind, gets, ret, throw.
  by destruct (fields (this w) !! f).
Qed.

Lemma written_fields (w : World) (f g : string) (v : value) :
  fields (this (written f v w)) !! g
  = if decide (f = g) then Some v else fields (this w) !! g.
Proof. simpl. apply lookup_insert. Qed.

Lemma written_dirty (w : World) (f : string) (v : value) :
  f ∈ updatedFields (this (written f v w)).
Proof. simpl. set_solver. Qed.


Lemma isNothing_spec (v : value) (w : World) :
  v <> VNull -> isNothing v w = (Ok (nothing v), w).
Proof.
  intros Hv.
  destruct v as [| | b | n | | s | elems | props]; try reflexivity.
  - congruence.
  - destruct s; reflexivity.
  - destruct elems; reflexivity.
  - destruct props as [| [k x] props]; reflexivity.
Qed.

Lemma isNothing_null (w : World) :
  isNothing VNull w
  = (Throw (TypeError "Cannot convert undefined or null to object"), w).
Proof. reflexivity. Qed.

(** On a field that holds [null], [setIfData] is [setField]. *)
Lemma setIfData_onto_null (w : World) (f : string) (v : value) :
  fields (this w) !! f = Some VNull ->
  setIfData f v w = (Ok tt, written f v w)
  /\ fields (this (written f v w)) !! f = Some v
  /\ f ∈ updatedFields (this (written f v w)).
Proof.
  intros H. split; [| split].
  - unfold setIfData, bind. rewrite (getField_known _ _ _ H). simpl.
    apply setField_known. eauto.
  - rewrite written_fields. by rewrite decide_True.
  - apply written_dirty.
Qed.

(** On a field that holds data, nothing is not written: the value stays,
    the set of updated fields stays, and the call returns. *)
Lemma setIfData_nothing (w : World) (f : string) (current v : value) :
  fields (this w) !! f = Some current -> current <> VNull ->
  v <> VNull -> nothing v = true ->
  setIfData f v w = (Ok tt, w).
Proof.
  intros H Hc Hv Hn. unfold setIfData, bind.
  rewrite (getField_known _ _ _ H).
  replace (negb (strict_eq current VNull)) with true
    by (destruct current; try reflexivity; congruence).
  rewrite (isNothing_spec _ _ Hv), Hn. reflexivity.
Qed.

(** On a field that holds data, data is written. *)
Lemma setIfData_data (w : World) (f : string) (current v : value) :
  fields (this w) !! f = Some current -> current <> VNull ->
  v <> VNull -> nothing v = false ->
  setIfData f v w = (Ok tt, written f v w).
Proof.
  intros H Hc Hv Hn. unfold setIfData, bind.
  rewrite (getField_known _ _ _ H).
  replace (negb (strict_eq current VNull)) with true
    by (destruct current; try reflexivity; congruence).
  rewrite (isNothing_spec _ _ Hv), Hn. apply setField_known. eauto.
Qed.

(** [null] offered to a field that holds data: [Object.keys(null)] throws
    before [value == null] is reached. *)
Lemma setIfData_null_onto_data (w : World) (f : string) (current : value) :
  fields (this w) !! f = Some current -> current <> VNull ->
  setIfData f VNull w
  = (Throw (TypeError "Cannot convert undefined or null to object"), w).
Proof.
  intros H Hc. unfold setIfData, bind.
  rewrite (getField_known _ _ _ H).
  replace (negb (strict_eq current VNull)) with true
    by (destruct current; try reflexivity; congruence).
  reflexivity.
Qed.


Section Categories.
Variable F : Globals.fields.




End Categories.
End TaskProperties.


(** *** [Task.js] on concrete tasks *)

(** C1, where the code departs from it: a task whose name is ["x"] is offered
    [null] for its name.  [setIfData] was to return without writing; it
    throws, because [Object.keys(value)] is evaluated before [value == null]. *)
Theorem setIfData_null_onto_data_throws :
  Task.setIfData "name" Js.VNull
    (Sample.world (Sample.task [("name", Js.VStr "x")]))
  = (Js.Throw (Js.TypeError "Cannot convert undefined or null to object"),
     Sample.world (Sample.task [("name", Js.VStr "x")])).
Proof.
  apply setIfData_null_onto_data with (current := Js.VStr "x").
  - reflexivity.
  - discriminate.
Qed.



(** ** Properties of [TrelloInterface.js] *)

(** *** The value codecs *)
Section Codecs.
Import Js TrelloInterface.

Lemma boolean_round_trip (b : bool) :
  and_then (valueToCustomField (VBool b)) customFieldToValue = Ok (VBool b).
Proof. destruct b; reflexivity. Qed.

Lemma string_round_trip (s : string) :
  and_then (valueToCustomField (VStr s)) customFieldToValue = Ok (VStr s).
Proof. reflexivity. Qed.

(** A number is encoded, but decoding the encoding gives [undefined]: the
    branch for ["number"] calls [parseInt] and returns nothing. *)
Lemma number_not_decoded (n : Z) :
  valueToCustomField (VNum n)
  = Ok (VObj [("value", VObj [("number", VStr (pretty n))])])
  /\ and_then (valueToCustomField (VNum n)) customFieldToValue = Ok VUndefined.
Proof. split; reflexivity. Qed.

(** A field that is present with the value [null] reads as [false]. *)
Lemma null_value_reads_false (props : list (string * value)) :
  lookup_prop "value" props = Some VNull ->
  customFieldToValue (VObj props) = Ok (VBool false).
Proof. intros H. unfold customFieldToValue. simpl. by rewrite H. Qed.

Lemma unsupported_type (v : value) :
  typeof v <> TBoolean -> typeof v <> TString -> typeof v <> TNumber ->
  valueToCustomField v
  = Throw (TypeError ("Unsupported type for trello custom field: "
                      ++ type_name (typeof v))).
Proof. intros Hb Hs Hn. destruct v; try reflexivity; simpl in *; congruence. Qed.

(** C6, where the code departs from it: the number [5] is encoded as
    [{value: {number: "5"}}], and decoding that gives [undefined], not [5]. *)
Theorem number_round_trip_lost :
  valueToCustomField (VNum 5)
  = Ok (VObj [("value", VObj [("number", VStr "5")])])
  /\ customFieldToValue (VObj [("value", VObj [("number", VStr "5")])])
     = Ok VUndefined.
Proof. split; reflexivity. Qed.
End Codecs.

(** *** Creating and updating cards *)
Section Cards.
Import Js Eff Eff.Notations Task TrelloInterface.
Variable F : Globals.fields.
Variable categoryLists : list (string * value).
Variable service : Requester.service.

Lemma bind_run {S A B : Type} (m : M S A) (k : A -> M S B) (s : S) :
  bind m k s
  = match m s with
    | (Ok a, s') => k a s'
    | (Throw e, s') => (Throw e, s')
    end.
Proof. reflexivity. Qed.

Lemma mainToRaw_known (w : World) (id desc name : value) :
  fields (this w) !! Globals.TRELLO_ID F = Some id ->
  fields (this w) !! Globals.DESCRIPTION F = Some desc ->
  fields (this w) !! Globals.NAME F = Some name ->
  mainToRaw F w = (Ok [("id", id); ("desc", desc); ("name", name)], w).
Proof.
  intros Hi Hd Hn. unfold mainToRaw.
  rewrite bind_run, (getField_known _ _ _ Hi).
  rewrite bind_run, (getField_known _ _ _ Hd).
  rewrite bind_run, (getField_known _ _ _ Hn).
  reflexivity.
Qed.

Lemma mainToRaw_pure (w : World) : (mainToRaw F w).2 = w.
Proof.
  unfold mainToRaw. rewrite bind_run.
  pose proof (getField_pure (Globals.TRELLO_ID F) w) as H1.
  destruct (getField (Globals.TRELLO_ID F) w) as [[id | e] w1];
    simpl in H1; subst w1; [| done].
  rewrite bind_run.
  pose proof (getField_pure (Globals.DESCRIPTION F) w) as H2.
  destruct (getField (Globals.DESCRIPTION F) w) as [[desc | e] w1];
    simpl in H2; subst w1; [| done].
  rewrite bind_run.
  pose proof (getField_pure (Globals.NAME F) w) as H3.
  destruct (getField (Globals.NAME F) w) as [[name | e] w1];
    simpl in H3; subst w1; done.
Qed.

(** What is submitted: the main fields without the id, and the list. *)
Lemma rawMain_for_create (id desc name listId : value) :
  set_prop "idList" listId
    (delete_prop "id" [("id", id); ("desc", desc); ("name", name)])
  = [("desc", desc); ("name", name); ("idList", listId)].
Proof. reflexivity. Qed.

Lemma pop_last (f : string) (init : list value) (c : value) (w : World) :
  pop f (VArr (init ++ [c])) w = (Ok c, (mutated f init w).2).
Proof.
  unfold pop. rewrite bind_run. simpl.
  by rewrite removelast_last, last_snoc.
Qed.

Lemma length_snoc_nonzero (init : list value) (c : value) :
  negb (strict_eq (VNum (Z.of_nat (length (init ++ [c])))) (VNum 0)) = true.
Proof.
  simpl. rewrite length_app. simpl.
  apply negb_true_iff, Z.eqb_neq. lia.
Qed.

Lemma popped_snoc (init : list value) (c : value) (w : World) :
  popped F (init ++ [c]) w = (mutated (Globals.CATEGORIES F) init w).2.
Proof. unfold popped. rewrite removelast_last. by destruct init. Qed.

Lemma popped_requests (w : World) (cats : list value) :
  requests (popped F cats w) = requests w.
Proof. unfold popped. by destruct cats. Qed.

Lemma popped_updatedFields (w : World) (cats : list value) :
  updatedFields (this (popped F cats w)) = updatedFields (this w).
Proof. unfold popped. by destruct cats. Qed.

Lemma popped_known (w : World) (cats : list value) (f : string) :
  is_Some (fields (this w) !! f) ->
  is_Some (fields (this (popped F cats w)) !! f).
Proof.
  intros H. unfold popped. destruct cats; [done |]. simpl.
  rewrite lookup_insert. by case_decide.
Qed.
(** [createCard] on a task whose fields are known and whose last category
    has a string form: the request it sends and what follows the answer. *)
Lemma createCard_run (w : World) (cats : list value)
  (id desc name listId : value) :
  fields (this w) !! Globals.CATEGORIES F = Some (VArr cats) ->
  fields (this w) !! Globals.TRELLO_ID F = Some id ->
  fields (this w) !! Globals.DESCRIPTION F = Some desc ->
  fields (this w) !! Globals.NAME F = Some name ->
  Globals.CATEGORIES F <> Globals.DESCRIPTION F ->
  Globals.CATEGORIES F <> Globals.NAME F ->
  match last cats with
  | None => listId = default VUndefined (lookup_prop "1" categoryLists)
  | Some category =>
      exists key, toString category = Ok key
                  /\ listId = default VUndefined (lookup_prop key categoryLists)
  end ->
  let create :=
    Requester.createCard
      (VObj [("desc", desc); ("name", name); ("idList", listId)]) in
  createCard F categoryLists service w
  = match service (requests w) create with
    | Requester.Success response =>
        settle (let* id := lift (get response "id") in
                let* _ := setField (Globals.TRELLO_ID F) id in
                ret (Fulfilled response)) (sent create (popped F cats w))
    | Requester.Failure reason =>
        (Ok (Rejected (Rejection reason)), sent create (popped F cats w))
    end.
Proof.
  intros Hc Hi Hd Hn Hcd Hcn Hdest create.
  unfold createCard. rewrite bind_run, (getField_known _ _ _ Hc).
  cbn [get lift]. rewrite bind_run. cbn [String.eqb Ascii.eqb Bool.eqb].
  destruct (last cats) as [c |] eqn:Hlast.
  - apply last_Some in Hlast as [init ->].
    destruct Hdest as (key & Hkey & ->).
    unfold lift at 1. cbv beta iota.
    rewrite length_snoc_nonzero.
    rewrite bind_run. rewrite bind_run, pop_last.
    rewrite bind_run. unfold lift at 1. rewrite Hkey. unfold ret at 1.
    rewrite bind_run.
    destruct (popped_known w (init ++ [c]) (Globals.TRELLO_ID F))
      as [id' Hi']; [by eauto |].
    rewrite popped_snoc in Hi'.
    rewrite (mainToRaw_known _ id' desc name).
    2: done.
    2-3: simpl; rewrite lookup_insert_ne; done.
    rewrite bind_run. unfold send at 1. rewrite rawMain_for_create.
    rewrite popped_snoc. fold create.
    change (requests (mutated (Globals.CATEGORIES F) init w).2)
      with (requests w).
    by destruct (service (requests w) create).
  - apply last_None in Hlast as ->. subst listId.
    unfold lift at 1. cbv beta iota. simpl negb. cbv iota.
    rewrite bind_run. unfold ret at 1. rewrite bind_run.
    rewrite (mainToRaw_known _ id desc name) by done.
    rewrite bind_run. unfold send at 1. rewrite rawMain_for_create.
    fold create. by destruct (service (requests w) create).
Qed.

(** The handler [createCard] attaches with [tap], once the id is read. *)
Lemma tap_known (w : World) (response id : value) :
  is_Some (fields (this w) !! Globals.TRELLO_ID F) ->
  settle (let* id := lift (Ok id) in
          let* _ := setField (Globals.TRELLO_ID F) id in
          ret (Fulfilled response)) w
  = (Ok (Fulfilled response), written (Globals.TRELLO_ID F) id w).
Proof.
  intros Hknown. unfold settle. rewrite bind_run. unfold lift.
  rewrite bind_run, setField_known by done. reflexivity.
Qed.

(** The request [createCard] sends, and the outcome for each answer. *)
Lemma createCard_outcome (w : World) (cats : list value)
  (id desc name listId : value) :
  fields (this w) !! Globals.CATEGORIES F = Some (VArr cats) ->
  fields (this w) !! Globals.TRELLO_ID F = Some id ->
  fields (this w) !! Globals.DESCRIPTION F = Some desc ->
  fields (this w) !! Globals.NAME F = Some name ->
  Globals.CATEGORIES F <> Globals.DESCRIPTION F ->
  Globals.CATEGORIES F <> Globals.NAME F ->
  match last cats with
  | None => listId = default VUndefined (lookup_prop "1" categoryLists)
  | Some category =>
      exists key, toString category = Ok key
                  /\ listId = default VUndefined (lookup_prop key categoryLists)
  end ->
  let create :=
    Requester.createCard
      (VObj [("desc", desc); ("name", name); ("idList", listId)]) in
  exists (p : settled) (w' : World),
    createCard F categoryLists service w = (Ok p, w')
    /\ requests w' = (requests w ++ [create])%list
    /\ match service (requests w) create with
       | Requester.Success response =>
           forall newId, get response "id" = Ok newId ->
             p = Fulfilled response
             /\ fields (this w') !! Globals.TRELLO_ID F = Some newId
             /\ Globals.TRELLO_ID F ∈ updatedFields (this w')
       | Requester.Failure reason =>
           p = Rejected (Rejection reason)
           /\ updatedFields (this w') = updatedFields (this w)
       end.
Proof.
  intros Hc Hi Hd Hn Hcd Hcn Hdest create.
  rewrite (createCard_run w cats id desc name listId) by done.
  fold create. destruct (service (requests w) create) as [response | reason].
  - destruct (get response "id") as [newId | e] eqn:Hid.
    + rewrite tap_known.
      2:{ apply (popped_known w cats). eauto. }
      eexists _, _. split; [reflexivity |].
      split; [simpl; by rewrite popped_requests |].
      intros ? [= <-]. split; [done |]. split.
      * rewrite written_fields. by rewrite decide_True.
      * apply written_dirty.
    + unfold settle. rewrite bind_run. unfold lift.
      eexists _, _. split; [reflexivity |].
      split; [simpl; by rewrite popped_requests |]. done.
  - eexists _, _. split; [reflexivity |].
      split; [simpl; by rewrite popped_requests |].
    split; [done |]. simpl. apply popped_updatedFields.
Qed.

(** C7, amended.  [createCard] sends one request.  The card goes to the
    list of the last category of the task, or to the list of category 1 when
    the task has no category; the request carries the description and the
    name and no id.  When the service answers with a card, the id of that
    card is written to the Trello id of the task by [setField], which marks
    it as updated; when the service refuses, the promise is rejected with
    its reason and no field is marked. *)
Theorem createCard_destination (w : World) (cats : list value)
  (id desc name : value) (key : string) :
  fields (this w) !! Globals.CATEGORIES F = Some (VArr cats) ->
  fields (this w) !! Globals.TRELLO_ID F = Some id ->
  fields (this w) !! Globals.DESCRIPTION F = Some desc ->
  fields (this w) !! Globals.NAME F = Some name ->
  Globals.CATEGORIES F <> Globals.DESCRIPTION F ->
  Globals.CATEGORIES F <> Globals.NAME F ->
  match last cats with
  | None => key = "1"
  | Some category => toString category = Ok key
  end ->
  let rawMain :=
    [("desc", desc); ("name", name);
     ("idList", default VUndefined (lookup_prop key categoryLists))] in
  lookup_prop "id" rawMain = None
  /\ exists (p : settled) (w' : World),
       createCard F categoryLists service w = (Ok p, w')
       /\ requests w'
          = (requests w ++ [Requester.createCard (VObj rawMain)])%list
       /\ match service (requests w) (Requester.createCard (VObj rawMain)) with
          | Requester.Success response =>
              forall newId, get response "id" = Ok newId ->
                p = Fulfilled response
                /\ fields (this w') !! Globals.TRELLO_ID F = Some newId
                /\ Globals.TRELLO_ID F ∈ updatedFields (this w')
          | Requester.Failure reason =>
              p = Rejected (Rejection reason)
              /\ updatedFields (this w') = updatedFields (this w)
          end.
Proof.
  intros Hc Hi Hd Hn Hcd Hcn Hkey rawMain.
  split; [reflexivity |].
  apply (createCard_outcome w cats id desc name); try done.
  destruct (last cats) as [category |].
  - by exists key.
  - by rewrite Hkey.
Qed.

Lemma lookup_set_prop (k : string) (v : value) (props : list (string * value)) :
  lookup_prop k (set_prop k v props) = Some v.
Proof.
  induction props as [| [k' v'] props IH]; simpl.
  - by rewrite String.eqb_refl.
  - destruct (String.eqb k k') eqn:Hk; simpl; rewrite Hk; done.
Qed.



(** [writeOrCreate] on a task that has a Trello id: the update it sends and
    what follows the answer. *)
Lemma writeOrCreate_update (w : World) (id desc name : value) :
  fields (this w) !! Globals.TRELLO_ID F = Some id ->
  fields (this w) !! Globals.DESCRIPTION F = Some desc ->
  fields (this w) !! Globals.NAME F = Some name ->
  truthy id = true ->
  let update :=
    Requester.updateCardMain id
      (VObj [("id", id); ("desc", desc); ("name", name)]) in
  writeOrCreate F categoryLists service w
  = match service (requests w) update with
    | Requester.Success response => (Ok (Fulfilled response), sent update w)
    | Requester.Failure reason =>
        settle (let* statusCode := lift (get reason "statusCode") in
                if strict_eq statusCode (VNum 404) then
                  let* name := getField (Globals.NAME F) in
                  let* _ := print Log
                              ("Updating card '" ++ to_string name
                               ++ "' failed. Creating new card") in
                  createCard F categoryLists service
                else ret (Fulfilled VUndefined)) (sent update w)
    end.
Proof.
  intros Hi Hd Hn Hset update. unfold writeOrCreate.
  rewrite bind_run, (getField_known _ _ _ Hi). rewrite Hset.
  rewrite bind_run, (getField_known _ _ _ Hi).
  rewrite bind_run, (mainToRaw_known _ id desc name) by done.
  rewrite bind_run. unfold send at 1. fold update.
  by destruct (service (requests w) update).
Qed.

(** Without a Trello id, [writeOrCreate] is [createCard]. *)
Lemma writeOrCreate_direct (w : World) (id : value) :
  fields (this w) !! Globals.TRELLO_ID F = Some id ->
  truthy id = false ->
  writeOrCreate F categoryLists service w = createCard F categoryLists service w.
Proof.
  intros Hi Hunset. unfold writeOrCreate.
  rewrite bind_run, (getField_known _ _ _ Hi). by rewrite Hunset.
Qed.

(** A failure of the update whose status code is not 404 is not passed on:
    the handler given to [catch] returns nothing for it, so the promise is
    fulfilled with [undefined].  No card is created. *)
Lemma writeOrCreate_other_failure (w : World) (id desc name reason code : value) :
  fields (this w) !! Globals.TRELLO_ID F = Some id ->
  fields (this w) !! Globals.DESCRIPTION F = Some desc ->
  fields (this w) !! Globals.NAME F = Some name ->
  truthy id = true ->
  service (requests w)
    (Requester.updateCardMain id
       (VObj [("id", id); ("desc", desc); ("name", name)]))
  = Requester.Failure reason ->
  get reason "statusCode" = Ok code ->
  strict_eq code (VNum 404) = false ->
  writeOrCreate F categoryLists service w
  = (Ok (Fulfilled VUndefined),
     sent (Requester.updateCardMain id
             (VObj [("id", id); ("desc", desc); ("name", name)])) w).
Proof.
  intros Hi Hd Hn Hset Hfail Hcode Hother.
  rewrite (writeOrCreate_update w id desc name) by done.
  rewrite Hfail. unfold settle. rewrite bind_run. unfold lift at 1.
  rewrite Hcode, Hother. reflexivity.
Qed.

(** C4.  A task has a Trello id and the update of its main fields fails
    with status code 404: [writeOrCreate] sends the update and then one
    request to create a card, and if that succeeds the promise is fulfilled
    with the card and the Trello id of the task is the id of the card.  A task
    has no Trello id: [writeOrCreate] is [createCard], and the request to
    create the card is the only one sent. *)
Theorem writeOrCreate_creates_when_missing (w : World) (cats : list value)
  (id desc name listId : value) :
  fields (this w) !! Globals.CATEGORIES F = Some (VArr cats) ->
  fields (this w) !! Globals.TRELLO_ID F = Some id ->
  fields (this w) !! Globals.DESCRIPTION F = Some desc ->
  fields (this w) !! Globals.NAME F = Some name ->
  Globals.CATEGORIES F <> Globals.DESCRIPTION F ->
  Globals.CATEGORIES F <> Globals.NAME F ->
  match last cats with
  | None => listId = default VUndefined (lookup_prop "1" categoryLists)
  | Some category =>
      exists key, toString category = Ok key
                  /\ listId = default VUndefined (lookup_prop key categoryLists)
  end ->
  let update :=
    Requester.updateCardMain id
      (VObj [("id", id); ("desc", desc); ("name", name)]) in
  let create :=
    Requester.createCard
      (VObj [("desc", desc); ("name", name); ("idList", listId)]) in
  (truthy id = true ->
   forall reason,
     service (requests w) update = Requester.Failure reason ->
     get reason "statusCode" = Ok (VNum 404) ->
     exists (p : settled) (w' : World),
       writeOrCreate F categoryLists service w = (Ok p, w')
       /\ requests w' = (requests w ++ [update; create])%list
       /\ forall response newId,
            service (requests w ++ [update])%list create
            = Requester.Success response ->
            get response "id" = Ok newId ->
            p = Fulfilled response
            /\ fields (this w') !! Globals.TRELLO_ID F = Some newId)
  /\ (truthy id = false ->
      exists (p : settled) (w' : World),
        writeOrCreate F categoryLists service w = (Ok p, w')
        /\ writeOrCreate F categoryLists service w
           = createCard F categoryLists service w
        /\ requests w' = (requests w ++ [create])%list
        /\ forall response newId,
             service (requests w) create = Requester.Success response ->
             get response "id" = Ok newId ->
             p = Fulfilled response
             /\ fields (this w') !! Globals.TRELLO_ID F = Some newId).
Proof.
  intros Hc Hi Hd Hn Hcd Hcn Hdest update create. split.
  - intros Hset reason Hfail Hcode.
    rewrite (writeOrCreate_update w id desc name) by done.
    fold update. rewrite Hfail. unfold settle at 1.
    rewrite bind_run. unfold lift at 1. rewrite Hcode.
    cbn [strict_eq Z.eqb Pos.eqb].
    rewrite bind_run, (getField_known _ _ name) by done.
    rewrite bind_run. unfold print at 1, modify at 1.
    set (w2 := logged Log _ (sent update w)).
    destruct (createCard_outcome w2 cats id desc name listId)
      as (p & w' & Hrun & Hreq & Hanswer); try done.
    exists p, w'. rewrite Hrun. split; [done |]. split.
    { rewrite Hreq. simpl. by rewrite <- app_assoc. }
    intros response newId Hanswered Hid.
    change (requests w2) with (requests w ++ [update])%list in Hanswer.
    fold create in Hanswer. rewrite Hanswered in Hanswer.
    by destruct (Hanswer newId Hid) as (-> & ? & ?).
  - intros Hunset.
    destruct (createCard_outcome w cats id desc name listId)
      as (p & w' & Hrun & Hreq & Hanswer); try done.
    exists p, w'. rewrite (writeOrCreate_direct w id) by done.
    split; [done |]. split; [done |]. split; [done |].
    intros response newId Hanswered Hid.
    fold create in Hanswer. rewrite Hanswered in Hanswer.
    by destruct (Hanswer newId Hid) as (-> & ? & ?).
Qed.
End Cards.

(** *** Cards of concrete tasks *)
Section CardExamples.
Import Js Eff Task TrelloInterface.

(** C3, where the code departs from it: the update of a card fails with
    status code 500.  The failure was to be passed on to the caller; the
    handler given to [catch] only acts on 404 and returns nothing otherwise,
    so the promise of [writeOrCreate] is fulfilled with [undefined].  No card
    is created, as the specification says. *)
Theorem writeOrCreate_swallows_failure :
  writeOrCreate Sample.F Sample.categoryLists (Sample.failing 500)
    (Sample.world Sample.linked)
  = (Ok (Fulfilled VUndefined),
     sent (Requester.updateCardMain (VStr "abc")
             (VObj [("id", VStr "abc"); ("desc", VStr "d"); ("name", VStr "x")]))
          (Sample.world Sample.linked)).
Proof.
  apply writeOrCreate_other_failure
    with (reason := VObj [("statusCode", VNum 500)]) (code := VNum 500);
    reflexivity.
Qed.

(** A task with a card that the board no longer has: the update fails with
    404, a card is created on the list of category 2, and its id replaces
    the old one. *)
Lemma writeOrCreate_creates_when_missing_witness :
  truthy (VStr "abc") = true
  /\ Sample.failing 404 []
       (Requester.updateCardMain (VStr "abc")
          (VObj [("id", VStr "abc"); ("desc", VStr "d"); ("name", VStr "x")]))
     = Requester.Failure (VObj [("statusCode", VNum 404)])
  /\ exists (p : settled) (w' : World),
       writeOrCreate Sample.F Sample.categoryLists (Sample.failing 404)
         (Sample.world Sample.linked) = (Ok p, w')
       /\ requests w'
          = [Requester.updateCardMain (VStr "abc")
               (VObj [("id", VStr "abc"); ("desc", VStr "d");
                      ("name", VStr "x")]);
             Requester.createCard
               (VObj [("desc", VStr "d"); ("name", VStr "x");
                      ("idList", VStr "list-design")])]
       /\ p = Fulfilled (VObj [("id", VStr "card-1")])
       /\ fields (this w') !! "trelloId" = Some (VStr "card-1").
Proof.
  split; [reflexivity |]. split; [reflexivity |].
  destruct (writeOrCreate_creates_when_missing Sample.F Sample.categoryLists
              (Sample.failing 404) (Sample.world Sample.linked)
              [VNum 1; VNum 2] (VStr "abc") (VStr "d") (VStr "x")
              (VStr "list-design"))
    as [Hset _].
  1-4: reflexivity.
  1-2: discriminate.
  { exists "2". split; reflexivity. }
  destruct (Hset eq_refl _ eq_refl eq_refl) as (p & w' & Hrun & Hreq & Hcard).
  exists p, w'. split; [exact Hrun |]. split; [exact Hreq |].
  exact (Hcard _ _ eq_refl eq_refl).
Defined.

(** A task in categories 1 and 2 goes to the list of category 2. *)
Lemma createCard_destination_witness :
  exists (p : settled) (w' : World),
    createCard Sample.F Sample.categoryLists Sample.accepting
      (Sample.world Sample.unlinked) = (Ok p, w')
    /\ requests w'
       = [Requester.createCard
            (VObj [("desc", VStr "d"); ("name", VStr "x");
                   ("idList", VStr "list-design")])]
    /\ p = Fulfilled (VObj [("id", VStr "card-1")])
    /\ fields (this w') !! "trelloId" = Some (VStr "card-1")
    /\ "trelloId" ∈ updatedFields (this w').
Proof.
  destruct (createCard_destination Sample.F Sample.categoryLists
              Sample.accepting (Sample.world Sample.unlinked)
              [VNum 1; VNum 2] VNull (VStr "d") (VStr "x") "2")
    as (_ & p & w' & Hrun & Hreq & Hcard).
  1-4: reflexivity.
  1-2: discriminate.
  1: reflexivity.
  exists p, w'. split; [exact Hrun |]. split; [exact Hreq |].
  exact (Hcard _ eq_refl).
Defined.

(** C7 as stated fails: a task in categories 1 and 2, in this order, gets
    its card on the list of category 2, not on that of category 1. *)
Lemma createCard_not_first_category :
  ~ (forall (w : World) (first : value) (rest : list value) (raw : value),
        fields (this w) !! "categories" = Some (VArr (first :: rest)) ->
        requests (createCard Sample.F Sample.categoryLists Sample.accepting w).2
        = (requests w ++ [Requester.createCard raw])%list ->
        get raw "idList"
        = Ok (default VUndefined
                (lookup_prop (to_string first) Sample.categoryLists))).
Proof.
  intros stated.
  specialize (stated (Sample.world Sample.unlinked) (VNum 1) [VNum 2] _
                eq_refl eq_refl).
  vm_compute in stated. discriminate.
Qed.


(** C5, where the code departs from it: only the number of days of a task
    changed.  The custom field for the days was to carry the days, [3]; it
    carries the Google id of the task, ["g1"], because the cases for the
    days, the beginner flag and the instances all read
    [fields.GOOGLE_ID].  [customToRaw], which writes the same custom fields
    for a whole task, reads [fields.DAYS]. *)
Theorem writeFields_days_carry_google_id :
  writeFields Sample.F Sample.categories Sample.categoryLists
    Sample.customFields Sample.accepting ["days"] (Sample.world Sample.dated)
  = (Ok (Fulfilled VUndefined),
     sent (Requester.updateCustomField (VStr "abc") "cf-days"
             (VObj [("value", VObj [("text", VStr "g1")])]))
          (Sample.world Sample.dated))
  /\ getCustomFieldFromTask "days" (Sample.world Sample.dated)
     = (Ok (VObj [("value", VObj [("number", VStr "3")])]),
        Sample.world Sample.dated)
  /\ and_then
       (customToRaw Sample.F Sample.categories Sample.customFields
          (Sample.world Sample.dated)).1
       (fun rawCustom => Ok (lookup_prop "cf-days" rawCustom))
     = Ok (Some (VObj [("value", VObj [("number", VStr "3")])])).
Proof. split; [| split]; vm_compute; reflexivity. Qed.
End CardExamples.

(** *** Reading the categories of a card *)
Section Categories.
Import Js Eff Eff.Notations Task TrelloInterface.
Variable F : Globals.fields.
Variable categories : Globals.categories.
Variable categoryLists : list (string * value).
Variable customFields : Config.customFields.

Lemma same_value_zero_plain (v e : value) :
  plain v -> same_value_zero v e = true <-> v = e.
Proof.
  destruct v; try done; intros _; destruct e; simpl; try done.
  - rewrite Z.eqb_eq. split; congruence.
Qed.

Lemma set_has_plain (s : list value) (v : value) :
  plain v -> set_has s v = true <-> v ∈ s.
Proof.
  intros Hv. unfold set_has. rewrite existsb_exists. split.
  - intros (e & He & Heq). apply same_value_zero_plain in Heq as ->; [| done].
    by apply list_elem_of_In.
  - intros Hin. exists v. split; [by apply list_elem_of_In |].
    by apply same_value_zero_plain.
Qed.

Lemma elem_of_set_add (s : list value) (v c : value) :
  plain v -> c ∈ set_add s v <-> c ∈ s \/ c = v.
Proof.
  intros Hv. unfold set_add.
  destruct (set_has s v) eqn:Hhas.
  - apply set_has_plain in Hhas; [| done]. split; [by left |].
    by intros [? | ->].
  - rewrite elem_of_app, list_elem_of_singleton. done.
Qed.

Lemma NoDup_set_add (s : list value) (v : value) :
  plain v -> NoDup s -> NoDup (set_add s v).
Proof.
  intros Hv Hs. unfold set_add.
  destruct (set_has s v) eqn:Hhas; [done |].
  apply NoDup_app. split; [done |]. split; [| apply NoDup_singleton].
  intros x Hx ->%list_elem_of_singleton.
  apply set_has_plain in Hx; [| done]. congruence.
Qed.

Lemma parseInt_plain (s : string) : plain (parseInt s).
Proof.
  unfold parseInt.
  destruct (match skip_spaces s with
            | String "-" rest => (-1, rest)
            | String "+" rest => (1, rest)
            | _ => (1, skip_spaces s)
            end) as [sign s1].
  destruct (match s1 with
            | String "0" (String "x" rest) | String "0" (String "X" rest) =>
                (16, rest)
            | _ => (10, s1)
            end) as [radix s2].
  by destruct (digits radix s2 None).
Qed.

(** One of the five tests of [parseCategories]. *)
Lemma checked_step (s : list value) (d : value) (z : Z) :
  d = VUndefined \/ (exists b, d = VBool b) ->
  let s' := if truthy d then set_add s (VNum z) else s in
  (forall c, c ∈ s' <-> c ∈ s \/ (d = VBool true /\ c = VNum z))
  /\ (NoDup s -> NoDup s').
Proof.
  intros [-> | [[] ->]]; simpl.
  - split; [| done]. intros c. split; [by left | by intros [? | [? ?]]].
  - split; [| by apply NoDup_set_add].
    intros c. rewrite elem_of_set_add by done.
    split; [intros [? | ?]; [by left | by right] | intros [? | [_ ?]]; tauto].
  - split; [| done]. intros c. split; [by left | by intros [? | [? ?]]].
Qed.

Lemma find_total {A : Type} (cb : A -> result bool) (p : A -> bool)
  (l : list A) :
  (forall x, cb x = Ok (p x)) -> find cb l = Ok (List.find p l).
Proof.
  intros H. induction l as [| x l IH]; [done |].
  simpl. rewrite H. simpl. by destruct (p x).
Qed.

Lemma get_defined (v : value) (name name' : string) (x : value) :
  get v name = Ok x -> exists y, get v name' = Ok y.
Proof. destruct v; simpl; try done; eauto. Qed.

Lemma taskCategories_run (w : World) (rawCard idList name id : value)
  (d1 d2 d3 d4 d5 : value) :
  getCustomFieldFromData (Config.isDesign customFields) rawCard = Ok d1 ->
  getCustomFieldFromData (Config.isCode customFields) rawCard = Ok d2 ->
  getCustomFieldFromData (Config.isDocs customFields) rawCard = Ok d3 ->
  getCustomFieldFromData (Config.isOutResearch customFields) rawCard = Ok d4 ->
  getCustomFieldFromData (Config.isQa customFields) rawCard = Ok d5 ->
  get rawCard "idList" = Ok idList ->
  get rawCard "name" = Ok name ->
  get rawCard "id" = Ok id ->
  taskCategories categories categoryLists customFields rawCard w
  = match listCategory categoryLists idList with
    | Some listId =>
        if negb (set_has (checkedCategories categories d1 d2 d3 d4 d5) listId)
        then (Ok (set_add (checkedCategories categories d1 d2 d3 d4 d5) listId),
              with_this (with_listCategoryAdded true) w)
        else (Ok (checkedCategories categories d1 d2 d3 d4 d5), w)
    | None =>
        (Ok (checkedCategories categories d1 d2 d3 d4 d5),
         logged Err ("Card '" ++ to_string name ++ "' (" ++ to_string id
                     ++ ") is not in a category list.") w)
    end.
Proof.
  intros E1 E2 E3 E4 E5 HidList Hname Hid.
  unfold taskCategories, listCategory.
  rewrite E1, E2, E3, E4, E5, Hname, Hid.
  rewrite (find_total _
             (fun key => strict_eq
                           (default VUndefined (lookup_prop key categoryLists))
                           idList)).
  2:{ intros key. by rewrite HidList. }
  destruct (List.find _ (map fst categoryLists)) as [key |]; simpl.
  - unfold bind, lift. fold (checkedCategories categories d1 d2 d3 d4 d5).
    by destruct (negb (set_has _ _)).
  - reflexivity.
Qed.

Lemma checkedCategories_spec (d1 d2 d3 d4 d5 : value) :
  d1 = VUndefined \/ (exists b, d1 = VBool b) ->
  d2 = VUndefined \/ (exists b, d2 = VBool b) ->
  d3 = VUndefined \/ (exists b, d3 = VBool b) ->
  d4 = VUndefined \/ (exists b, d4 = VBool b) ->
  d5 = VUndefined \/ (exists b, d5 = VBool b) ->
  NoDup (checkedCategories categories d1 d2 d3 d4 d5)
  /\ forall c,
       c ∈ checkedCategories categories d1 d2 d3 d4 d5
       <-> (d1 = VBool true /\ c = VNum (Globals.DESIGN categories))
           \/ (d2 = VBool true /\ c = VNum (Globals.CODING categories))
           \/ (d3 = VBool true /\ c = VNum (Globals.DOCS_TRAINING categories))
           \/ (d4 = VBool true /\ c = VNum (Globals.OUTRESEARCH categories))
           \/ (d5 = VBool true /\ c = VNum (Globals.QA categories)).
Proof.
  intros B1 B2 B3 B4 B5. unfold checkedCategories.
  destruct (checked_step [] d1 (Globals.DESIGN categories) B1) as [M1 N1].
  set (s1 := if truthy d1 then _ else _) in *.
  destruct (checked_step s1 d2 (Globals.CODING categories) B2) as [M2 N2].
  set (s2 := if truthy d2 then _ else _) in *.
  destruct (checked_step s2 d3 (Globals.DOCS_TRAINING categories) B3) as [M3 N3].
  set (s3 := if truthy d3 then _ else _) in *.
  destruct (checked_step s3 d4 (Globals.OUTRESEARCH categories) B4) as [M4 N4].
  set (s4 := if truthy d4 then _ else _) in *.
  destruct (checked_step s4 d5 (Globals.QA categories) B5) as [M5 N5].
  set (s5 := if truthy d5 then _ else _) in *.
  split.
  - apply N5, N4, N3, N2, N1, NoDup_nil_2.
  - intros c. rewrite M5, M4, M3, M2, M1.
    assert (Hnil : ~ c ∈ ([] : list value)) by apply not_elem_of_nil.
    tauto.
Qed.

Lemma listCategory_plain (idList listId : value) :
  listCategory categoryLists idList = Some listId -> plain listId.
Proof.
  unfold listCategory. destruct (List.find _ _); [| done].
  intros [= <-]. apply parseInt_plain.
Qed.

(** C2.  On a card whose five category fields are checkboxes,
    [parseCategories] collects a set and offers it to the categories field of
    the task with [setIfData].  The set holds the categories whose checkbox
    reads [true] and the category of the list the card is in, added last and
    only when it is not there yet.  [listCategoryAdded] is set exactly when
    it is added.  A card in a list that belongs to no category gets an error
    on the console, only the checked categories, and no change of
    [listCategoryAdded]. *)
Theorem parseCategories_category_set (w : World) (rawCard idList : value) :
  booleanFields customFields rawCard ->
  get rawCard "idList" = Ok idList ->
  exists (cats : list value) (w1 : World),
    taskCategories categories categoryLists customFields rawCard w
    = (Ok cats, w1)
    /\ parseCategories F categories categoryLists customFields rawCard w
       = setIfData (Globals.CATEGORIES F) (VArr cats) w1
    /\ NoDup cats
    /\ (forall c,
          c ∈ cats
          <-> explicitCategory categories customFields rawCard c
              \/ listCategory categoryLists idList = Some c)
    /\ (listCategoryAdded (this w1) = true
        <-> listCategoryAdded (this w) = true
            \/ exists c,
                 listCategory categoryLists idList = Some c
                 /\ ~ explicitCategory categories customFields rawCard c)
    /\ (is_Some (listCategory categoryLists idList) -> console w1 = console w)
    /\ (listCategory categoryLists idList = None ->
        (exists msg, console w1 = (console w ++ [(Err, msg)])%list)
        /\ (forall c,
              c ∈ cats <-> explicitCategory categories customFields rawCard c)
        /\ listCategoryAdded (this w1) = listCategoryAdded (this w)).
Proof.
  intros (Hdesign & Hcode & Hdocs & Hres & Hqa) HidList.
  destruct Hdesign as (d1 & E1 & B1), Hcode as (d2 & E2 & B2),
    Hdocs as (d3 & E3 & B3), Hres as (d4 & E4 & B4), Hqa as (d5 & E5 & B5).
  destruct (get_defined _ _ "name" _ HidList) as [name Hname].
  destruct (get_defined _ _ "id" _ HidList) as [id Hid].
  destruct (checkedCategories_spec d1 d2 d3 d4 d5 B1 B2 B3 B4 B5)
    as [Hnodup Hmem].
  assert (Hexplicit : forall c,
    c ∈ checkedCategories categories d1 d2 d3 d4 d5
    <-> explicitCategory categories customFields rawCard c).
  { intros c. rewrite Hmem. unfold explicitCategory, checked.
    rewrite E1, E2, E3, E4, E5.
    assert (Hok : forall d : value, Ok d = Ok (VBool true) <-> d = VBool true)
      by (intros d; split; congruence).
    by rewrite !Hok. }
  pose proof (taskCategories_run w rawCard idList name id d1 d2 d3 d4 d5
                E1 E2 E3 E4 E5 HidList Hname Hid) as Hrun.
  unfold parseCategories. rewrite bind_run, Hrun.
  destruct (listCategory categoryLists idList) as [listId |] eqn:Hlist.
  - pose proof (listCategory_plain _ _ Hlist) as Hplain.
    destruct (set_has _ listId) eqn:Hhas; simpl.
    + apply set_has_plain in Hhas; [| done].
      eexists _, w. split; [reflexivity |]. split; [reflexivity |].
      split; [done |]. split; [| split; [| split; [done | done]]].
      * intros c. rewrite Hexplicit. split; [by left |].
        intros [? | [= <-]]; [done |]. by apply Hexplicit.
      * split; [by left |]. intros [? | (c & [= <-] & Hnot)]; [done |].
        destruct Hnot. by apply Hexplicit.
    + eexists _, _. split; [reflexivity |]. split; [reflexivity |].
      split; [by apply NoDup_set_add |].
      split; [| split; [| split; [done | done]]].
      * intros c. rewrite elem_of_set_add, Hexplicit by done.
        split; (intros [? | ?]; [by left | right; congruence]).
      * split; [| done]. intros _. right. exists listId. split; [done |].
        rewrite <- Hexplicit, <- set_has_plain by done. congruence.
  - eexists _, _. split; [reflexivity |]. split; [reflexivity |].
    split; [done |]. split; [| split; [| split]].
    + intros c. rewrite Hexplicit. split; [by left | by intros [? | ?]].
    + simpl. split; [by left |]. by intros [? | (c & ? & _)].
    + by intros [? ?].
    + intros _. split; [by eexists |]. split; [apply Hexplicit | done].
Qed.
End Categories.

(** ** Properties of [TaskList.js] *)
Section TaskListProperties.
Import Js TaskList.
Variable F : Globals.fields.
Variable defaults : list (string * value).

Lemma findIndex_None {A : Type} (p : A -> bool) (l : list A) :
  findIndex p l = None <-> forall x, x ∈ l -> p x = false.
Proof.
  induction l as [| y l IH]; simpl.
  - split; [| done]. intros _ x Hx. by apply elem_of_nil in Hx.
  - destruct (p y) eqn:Hy.
    + split; [done |]. intros H. rewrite H in Hy; [done | left].
    + destruct (findIndex p l); simpl.
      * split; [done |]. intros H.
        assert (Hn : Some n = None); [| done].
        apply IH. intros x Hx. apply H. by right.
      * split; [| done]. intros _ x [-> | Hx]%elem_of_cons; [done |].
        by apply IH.
Qed.

Lemma findIndex_Some {A : Type} (p : A -> bool) (l : list A) (i : nat) :
  findIndex p l = Some i -> exists x, l !! i = Some x /\ p x = true.
Proof.
  revert i. induction l as [| y l IH]; simpl; [done |]. intros i.
  destruct (p y) eqn:Hy.
  - intros [= <-]. by exists y.
  - destruct (findIndex p l) as [j |]; simpl; [| done].
    intros [= <-]. by apply IH.
Qed.

Lemma findIndex_snoc {A : Type} (p : A -> bool) (l : list A) (y : A) :
  (forall x, x ∈ l -> p x = false) ->
  findIndex p (l ++ [y]) = if p y then Some (length l) else None.
Proof.
  induction l as [| z l IH]; simpl; intros H.
  - by destruct (p y).
  - rewrite (H z) by left. rewrite IH by (intros x Hx; apply H; by right).
    by destruct (p y).
Qed.

Lemma strict_eq_isId (a b : value) :
  isId b -> strict_eq a b = true <-> a = b.
Proof.
  destruct b; try done; intros _; destruct a; simpl; try done.
  - rewrite Z.eqb_eq. split; congruence.
  - rewrite String.eqb_eq. split; congruence.
Qed.

Lemma hasId_lookup (ns : namespace) (w : World) (id : value) (r : ref) :
  hasId ns w id r
  = match heap w !! r with
    | Some data => strict_eq (idOf ns data) id
    | None => false
    end.
Proof. by destruct ns. Qed.

(** A call finds nothing: a task is made, it goes last, and it is returned. *)
Lemma run_new (c : lookup) (w : World) :
  known c w = false ->
  run F defaults c w
  = (Some (length (heap w)), made F defaults (target c).1 (target c).2 w).
Proof.
  assert (Hlast : forall (l : list nat) (n : nat),
            ((l ++ [n]) !! (length (l ++ [n]) - 1)%nat = Some n)%list).
  { intros l n. apply list_lookup_middle. rewrite length_app. simpl. lia. }
  intros Hnew.
  destruct c as [id | id]; simpl in Hnew; apply bool_decide_eq_false in Hnew;
    simpl; [unfold getTaskFromGoogle | unfold getTaskFromTrello];
    (destruct (findIndex _ _) as [i |]; [destruct Hnew; eauto |]);
    cbv zeta; unfold assign_at, push_new_Task; cbn [this tasks heap];
    rewrite (Hlast (tasks (this w)) (length (heap w))); cbn [this tasks heap];
    rewrite (Hlast (tasks (this w)) (length (heap w)));
    f_equal; unfold made; f_equal;
    rewrite alter_app_r_alt by lia; by rewrite Nat.sub_diag.
Qed.

(** A call finds a task: it is returned and nothing changes. *)
Lemma run_old (c : lookup) (w : World) :
  known c w = true ->
  exists (r : ref) (x : Task.t),
    run F defaults c w = (Some r, w)
    /\ r ∈ tasks (this w)
    /\ heap w !! r = Some x
    /\ strict_eq (idOf (target c).1 x) (target c).2 = true.
Proof.
  intros Hold.
  destruct c as [id | id]; simpl in Hold; apply bool_decide_eq_true in Hold;
    destruct Hold as [i Hi]; simpl;
    [unfold getTaskFromGoogle | unfold getTaskFromTrello];
    rewrite Hi; apply findIndex_Some in Hi as (r & Hr & Hhas);
    [unfold hasGoogleId in Hhas | unfold hasTrelloId in Hhas];
    (destruct (heap w !! r) as [x |] eqn:Hx; [| done]);
    exists r, x; rewrite Hr;
    (split; [done |]); (split; [by eapply list_elem_of_lookup_2 |]); done.
Qed.

Lemma known_false (c : lookup) (w : World) :
  known c w = false
  <-> forall r, r ∈ tasks (this w) ->
        hasId (target c).1 w (target c).2 r = false.
Proof.
  destruct c as [id | id]; simpl; rewrite bool_decide_eq_false;
    rewrite <- findIndex_None; (split; [intros H | intros ->; by intros [? ?]]);
    (destruct (findIndex _ _); [destruct H; eauto | done]).
Qed.

Lemma made_heap_old (ns : namespace) (id : value) (w : World) (r : ref) :
  (r < length (heap w))%nat ->
  heap (made F defaults ns id w) !! r = heap w !! r.
Proof. intros Hr. simpl. by apply lookup_app_l. Qed.

Lemma made_heap_new (ns : namespace) (id : value) (w : World) :
  heap (made F defaults ns id w) !! length (heap w)
  = Some (withId ns id (Task.constructor F defaults)).
Proof. simpl. by apply list_lookup_middle. Qed.

Lemma hasId_made_old (ns ns' : namespace) (id id' : value) (w : World)
  (r : ref) :
  (r < length (heap w))%nat ->
  hasId ns' (made F defaults ns id w) id' r = hasId ns' w id' r.
Proof. intros Hr. by rewrite !hasId_lookup, made_heap_old. Qed.

(** The id of a task just made: the one it was made for in its own
    namespace, none in the other. *)
Lemma idOf_made (ns ns' : namespace) (id : value) :
  idOf ns' (withId ns id (Task.constructor F defaults))
  = match ns, ns' with
    | Google, Google | Trello, Trello => id
    | _, _ => VUndefined
    end.
Proof. by destruct ns, ns'. Qed.

Lemma atMostOne_namespaces (w : World) :
  atMostOne w
  <-> NoDup (tasks (this w))
      /\ forall (ns : namespace) (r r' : ref) (x x' : Task.t),
           r ∈ tasks (this w) -> r' ∈ tasks (this w) ->
           heap w !! r = Some x -> heap w !! r' = Some x' ->
           isId (idOf ns x) -> idOf ns x = idOf ns x' -> r = r'.
Proof.
  unfold atMostOne. split; intros [Hnd H]; (split; [done |]).
  - intros [] r r' x x' Hr Hr' Hx Hx'; by apply (H r r' x x').
  - intros r r' x x' Hr Hr' Hx Hx'.
    split; [apply (H Google r r' x x') | apply (H Trello r r' x x')]; done.
Qed.

Lemma elem_of_made (ns : namespace) (id : value) (w : World) (r : ref) :
  r ∈ tasks (this (made F defaults ns id w))
  <-> r ∈ tasks (this w) \/ r = length (heap w).
Proof. simpl. by rewrite elem_of_app, list_elem_of_singleton. Qed.

(** Making a task for an id that is not known keeps the list in order. *)
Lemma made_invariant (c : lookup) (w : World) :
  valid c -> known c w = false ->
  atMostOne w -> allocated w ->
  atMostOne (made F defaults (target c).1 (target c).2 w)
  /\ allocated (made F defaults (target c).1 (target c).2 w).
Proof.
  intros Hvalid Hnew [Hnd Hone]%atMostOne_namespaces Halloc.
  rewrite known_false in Hnew.
  assert (Hid : isId (target c).2) by (by destruct c).
  set (ns := (target c).1) in *. set (id := (target c).2) in *.
  assert (Hclash : forall ns' r x,
    r ∈ tasks (this w) -> heap w !! r = Some x ->
    (isId (idOf ns' x)
     \/ isId (idOf ns' (withId ns id (Task.constructor F defaults)))) ->
    idOf ns' x <> idOf ns' (withId ns id (Task.constructor F defaults))).
  { intros ns' r x Hr Hx Hids Heq. rewrite idOf_made in Heq, Hids.
    specialize (Hnew r Hr). rewrite hasId_lookup, Hx in Hnew.
    destruct ns, ns'; rewrite Heq in Hids; simpl in Hids;
      try (by destruct Hids);
      rewrite Heq in Hnew; apply not_true_iff_false in Hnew;
      by rewrite strict_eq_isId in Hnew. }
  split; [apply atMostOne_namespaces; split |].
  - simpl. apply NoDup_app. split; [done |]. split; [| apply NoDup_singleton].
    intros r Hr ->%list_elem_of_singleton. apply Halloc in Hr. lia.
  - intros ns' r r' x x' Hr Hr' Hx Hx' Hisid Heq.
    apply elem_of_made in Hr as [Hr | ->], Hr' as [Hr' | ->].
    + rewrite made_heap_old in Hx, Hx' by by apply Halloc.
      by apply (Hone ns' r r' x x').
    + rewrite made_heap_old in Hx by by apply Halloc.
      rewrite made_heap_new in Hx'. injection Hx' as <-.
      destruct (Hclash ns' r x Hr Hx); [by left | done].
    + rewrite made_heap_old in Hx' by by apply Halloc.
      rewrite made_heap_new in Hx. injection Hx as <-.
      destruct (Hclash ns' r' x' Hr' Hx'); [by right | done].
    + done.
  - intros r [Hr | ->]%elem_of_made; simpl; rewrite length_app; simpl.
    + apply Halloc in Hr. lia.
    + lia.
Qed.

Lemma run_invariant (c : lookup) (w : World) :
  valid c -> atMostOne w -> allocated w ->
  atMostOne (run F defaults c w).2 /\ allocated (run F defaults c w).2.
Proof.
  intros Hvalid Hone Halloc. destruct (known c w) eqn:Hknown.
  - destruct (run_old c w Hknown) as (r & x & -> & _). done.
  - rewrite run_new by done. by apply made_invariant.
Qed.

Lemma run_all_invariant (calls : list lookup) (w : World) :
  Forall valid calls -> atMostOne w -> allocated w ->
  atMostOne (run_all F defaults calls w)
  /\ allocated (run_all F defaults calls w).
Proof.
  revert w. induction calls as [| c calls IH]; intros w Hvalid Hone Halloc;
    [done |].
  apply Forall_cons in Hvalid as [Hc Hcalls]. simpl.
  destruct (run_invariant c w) as [Hone' Halloc']; try done.
  by apply IH.
Qed.

Lemma initial_invariant (trelloIds : value * value) :
  atMostOne (initial trelloIds) /\ allocated (initial trelloIds).
Proof.
  split; [split |].
  - apply NoDup_nil_2.
  - intros r r' x x' Hr. by apply elem_of_nil in Hr.
  - intros r Hr. by apply elem_of_nil in Hr.
Qed.

Lemma run_found (c : lookup) (w : World) (i : nat) :
  findIndex (hasId (target c).1 w (target c).2) (tasks (this w)) = Some i ->
  run F defaults c w = (tasks (this w) !! i, w).
Proof.
  destruct c as [id | id]; simpl; intros Hfound.
  - change (findIndex (hasGoogleId w id) (tasks (this w)) = Some i) in Hfound.
    unfold getTaskFromGoogle. by rewrite Hfound.
  - change (findIndex (hasTrelloId w id) (tasks (this w)) = Some i) in Hfound.
    unfold getTaskFromTrello. by rewrite Hfound.
Qed.

(** The same call again finds the task the first call returned. *)
Lemma run_twice (c : lookup) (w : World) :
  valid c -> allocated w ->
  exists r : ref,
    (run F defaults c w).1 = Some r
    /\ run F defaults c (run F defaults c w).2
       = (Some r, (run F defaults c w).2).
Proof.
  intros Hvalid Halloc. destruct (known c w) eqn:Hknown.
  - destruct (run_old c w Hknown) as (r & x & Hrun & _).
    exists r. by rewrite Hrun.
  - rewrite run_new by done. exists (length (heap w)). split; [done |].
    cbn [snd].
    assert (Hid : isId (target c).2) by (by destruct c).
    rewrite known_false in Hknown.
    set (ns := (target c).1) in *. set (id := (target c).2) in *.
    assert (Hfound :
      findIndex (hasId ns (made F defaults ns id w) id)
                (tasks (this (made F defaults ns id w)))
      = Some (length (tasks (this w)))).
    { simpl tasks. rewrite findIndex_snoc.
      - rewrite hasId_lookup, made_heap_new, idOf_made.
        replace (strict_eq _ id) with true; [done |].
        symmetry. destruct ns; by apply strict_eq_isId.
      - intros r Hr. rewrite hasId_made_old by by apply Halloc.
        by apply Hknown. }
    assert (Hlookup :
      tasks (this (made F defaults ns id w)) !! length (tasks (this w))
      = Some (length (heap w))).
    { simpl. by apply list_lookup_middle. }
    rewrite (run_found c _ _ Hfound). by rewrite Hlookup.
Qed.

(** Two different calls, neither of which finds a task: two tasks are made. *)
Lemma run_two_new (c c' : lookup) (w : World) :
  valid c -> valid c' -> allocated w ->
  known c w = false -> known c' w = false -> c <> c' ->
  known c' (run F defaults c w).2 = false.
Proof.
  intros Hvalid Hvalid' Halloc Hnew Hnew' Hne.
  rewrite run_new by done. cbn [snd].
  rewrite known_false in Hnew'. apply known_false.
  intros r [Hr | ->]%elem_of_made.
  - rewrite hasId_made_old by by apply Halloc. by apply Hnew'.
  - rewrite hasId_lookup, made_heap_new, idOf_made.
    destruct c as [id | id], c' as [id' | id']; simpl in *;
      try (by destruct id');
      apply not_true_iff_false; rewrite strict_eq_isId by done; congruence.
Qed.

(** C9.  The list is the one the module exports, after any number of
    lookups by Google id or by Trello id.  A lookup returns a task, and the
    same lookup again returns that very task and changes nothing, so the list
    does not grow.  Two different lookups that both find no task return two
    different tasks, and the list grows by one with each.  No task is listed
    twice, and no two listed tasks have the same Google id or the same
    Trello id. *)
Theorem get_or_create_identity (trelloIds : value * value)
  (calls : list lookup) (c c' : lookup) :
  Forall valid calls -> valid c -> valid c' ->
  let w := run_all F defaults calls (initial trelloIds) in
  let w1 := (run F defaults c w).2 in
  (exists r : ref,
     (run F defaults c w).1 = Some r
     /\ run F defaults c w1 = (Some r, w1))
  /\ (known c w = false -> known c' w = false -> c <> c' ->
      exists r r' : ref,
        (run F defaults c w).1 = Some r
        /\ (run F defaults c' w1).1 = Some r'
        /\ r <> r'
        /\ length (tasks (this w1)) = S (length (tasks (this w)))
        /\ length (tasks (this (run F defaults c' w1).2))
           = S (length (tasks (this w1))))
  /\ atMostOne w.
Proof.
  intros Hcalls Hc Hc' w w1.
  destruct (run_all_invariant calls (initial trelloIds) Hcalls)
    as [Hone Halloc]; [apply initial_invariant.. |].
  fold w in Hone, Halloc.
  split; [by apply run_twice | split; [| done]].
  intros Hnew Hnew' Hne.
  pose proof (run_two_new c c' w Hc Hc' Halloc Hnew Hnew' Hne) as Hnew1.
  fold w1 in Hnew1. rewrite (run_new c' w1 Hnew1).
  subst w1. rewrite (run_new c w Hnew). cbn [fst snd].
  eexists _, _. split; [done |]. split; [done |].
  simpl. rewrite !length_app. simpl. split; lia.
Qed.
End TaskListProperties.

(** *** Concrete cards and a concrete list *)
Section MoreExamples.
Import Js Eff Task TrelloInterface.

(** The two cards of the description of [computeCategorySet]: coding checked
    on the list of QA, and QA checked on the list of QA. *)
Example coding_on_qa_list :
  taskCategories Sample.categories Sample.categoryLists Sample.customFields
    (Sample.card "list-qa"
       [Sample.item "cf-code" (VObj [("checked", VStr "true")])])
    (Sample.world Sample.unlinked)
  = (Ok [VNum 1; VNum 4],
     with_this (with_listCategoryAdded true) (Sample.world Sample.unlinked)).
Proof. reflexivity. Qed.

Example qa_on_qa_list :
  taskCategories Sample.categories Sample.categoryLists Sample.customFields
    (Sample.card "list-qa"
       [Sample.item "cf-qa" (VObj [("checked", VStr "true")])])
    (Sample.world Sample.unlinked)
  = (Ok [VNum 4], Sample.world Sample.unlinked).
Proof. reflexivity. Qed.

(** Coding checked on a card in the list of QA: both categories are in the
    set and [listCategoryAdded] is set. *)
Lemma parseCategories_category_set_witness :
  booleanFields Sample.customFields
    (Sample.card "list-qa"
       [Sample.item "cf-code" (VObj [("checked", VStr "true")])])
  /\ exists (cats : list value) (w1 : World),
       taskCategories Sample.categories Sample.categoryLists
         Sample.customFields
         (Sample.card "list-qa"
            [Sample.item "cf-code" (VObj [("checked", VStr "true")])])
         (Sample.world Sample.unlinked)
       = (Ok cats, w1)
       /\ (VNum 1 ∈ cats /\ VNum 4 ∈ cats)
       /\ listCategoryAdded (this w1) = true.
Proof.
  assert (Hfields :
    booleanFields Sample.customFields
      (Sample.card "list-qa"
         [Sample.item "cf-code" (VObj [("checked", VStr "true")])])).
  { repeat split; eexists; (split; [reflexivity |]);
      first [by left | right; by eexists]. }
  split; [exact Hfields |].
  destruct (parseCategories_category_set Sample.F Sample.categories
              Sample.categoryLists Sample.customFields
              (Sample.world Sample.unlinked)
              (Sample.card "list-qa"
                 [Sample.item "cf-code" (VObj [("checked", VStr "true")])])
              (VStr "list-qa") Hfields eq_refl)
    as (cats & w1 & Hrun & _ & _ & Hmem & Hadded & _).
  exists cats, w1. split; [exact Hrun |]. split; [split |].
  - apply Hmem. left. right. left. split; reflexivity.
  - apply Hmem. right. reflexivity.
  - apply Hadded. right. exists (VNum 4). split; [reflexivity |].
    intros [[_ [=]] | [[_ [=]] | [[_ [=]] | [[_ [=]] | [[=] _]]]]].
Defined.
End MoreExamples.

Section ListExamples.
Import Js TaskList.

(** A list with one task from Google, looked up twice by a Trello id. *)
Lemma get_or_create_identity_witness :
  Forall valid [FromGoogle (VNum 7)]
  /\ valid (FromTrello (VStr "abc"))
  /\ valid (FromGoogle (VNum 8))
  /\ (exists r : ref,
        (run Sample.F Sample.defaults (FromTrello (VStr "abc"))
           (run_all Sample.F Sample.defaults [FromGoogle (VNum 7)]
              (initial (VStr "board", VObj Sample.categoryLists)))).1
        = Some r
        /\ (run Sample.F Sample.defaults (FromTrello (VStr "abc"))
              (run Sample.F Sample.defaults (FromTrello (VStr "abc"))
                 (run_all Sample.F Sample.defaults [FromGoogle (VNum 7)]
                    (initial (VStr "board", VObj Sample.categoryLists)))).2).1
           = Some r)
  /\ atMostOne
       (run_all Sample.F Sample.defaults [FromGoogle (VNum 7)]
          (initial (VStr "board", VObj Sample.categoryLists))).
Proof.
  assert (Hcalls : Forall valid [FromGoogle (VNum 7)])
    by (repeat constructor).
  split; [exact Hcalls |]. split; [exact I |]. split; [exact I |].
  destruct (get_or_create_identity Sample.F Sample.defaults
              (VStr "board", VObj Sample.categoryLists)
              [FromGoogle (VNum 7)] (FromTrello (VStr "abc"))
              (FromGoogle (VNum 8)) Hcalls I I)
    as ((r & Hfirst & Hsecond) & _ & Hone).
  split; [| exact Hone].
  exists r. split; [exact Hfirst |]. by rewrite Hsecond.
Defined.
End ListExamples.

Section MoreTask.
Import Js Eff Eff.Notations Task.
Variable F : Globals.fields.
Variable defaults : list (string * value).

(** X2.  A known field that is set reads back as the value it was set to and
    is marked as updated; every other field keeps its value and its mark. *)
Theorem setField_then_getField (w : World) (f g : string) (v : value) :
  is_Some (fields (this w) !! f) ->
  exists w' : World,
    setField f v w = (Ok tt, w')
    /\ getField f w' = (Ok v, w')
    /\ f ∈ updatedFields (this w')
    /\ (g <> f ->
        fields (this w') !! g = fields (this w) !! g
        /\ (g ∈ updatedFields (this w') <-> g ∈ updatedFields (this w))).
Proof.
  intros Hknown. exists (written f v w).
  split; [by apply setField_known |]. split; [| split].
  - apply getField_known. rewrite written_fields. by rewrite decide_True.
  - apply written_dirty.
  - intros Hne. split.
    + rewrite written_fields. by rewrite decide_False.
    + simpl. rewrite elem_of_union, elem_of_singleton. tauto.
Qed.

(** X3.  A field the task does not have can be neither read nor set:
    [getField], [setField] and [setIfData] throw, each naming the field, and
    leave the task as it was. *)
Theorem unknown_field_throws (w : World) (f : string) (v : value) :
  fields (this w) !! f = None ->
  getField f w
  = (Throw (NewError ("Attempted to get unknown field '" ++ f ++ "'")), w)
  /\ setField f v w
     = (Throw (NewError ("Attempted to set unknown field '" ++ f
                         ++ "' to value '" ++ to_string v ++ "'")), w)
  /\ setIfData f v w
     = (Throw (NewError ("Attempted to get unknown field '" ++ f ++ "'")), w).
Proof.
  intros Hunknown. split; [by apply getField_unknown |]. split.
  - unfold setField, bind, gets, throw.
    rewrite bool_decide_eq_false_2; [done |]. rewrite Hunknown. by intros [? ?].
  - unfold setIfData, bind. by rewrite getField_unknown.
Qed.

Lemma fold_insert_lookup (l : list (string * value)) (m : gmap string value)
  (k : string) :
  NoDup (map fst l) ->
  fold_left (fun acc d => <[d.1 := d.2]> acc) l m !! k
  = match lookup_prop k l with
    | Some v => Some v
    | None => m !! k
    end.
Proof.
  revert m. induction l as [| [k' v'] l IH]; intros m Hnd; [done |].
  simpl in *. apply NoDup_cons in Hnd as [Hk' Hnd].
  rewrite IH by done.
  destruct (String.eqb k k') eqn:Hk.
  - apply String.eqb_eq in Hk as ->.
    destruct (lookup_prop k' l) as [v |] eqn:Hl.
    + exfalso. apply Hk'. clear -Hl. induction l as [| [a b] l IH]; [done |].
      simpl in *. destruct (String.eqb k' a) eqn:E.
      * apply String.eqb_eq in E as ->. left.
      * right. by apply IH.
    + by rewrite lookup_insert_eq.
  - apply String.eqb_neq in Hk.
    destruct (lookup_prop k l); [done |]. by rewrite lookup_insert_ne.
Qed.

Lemma fold_null_lookup (l : list string) (m : gmap string value) (k : string) :
  fold_left (fun acc field => <[field := VNull]> acc) l m !! k
  = if bool_decide (k ∈ l) then Some VNull else m !! k.
Proof.
  revert m. induction l as [| f l IH]; intros m; [done |].
  simpl. rewrite IH. destruct (bool_decide (k ∈ l)) eqn:Hl.
  - apply bool_decide_eq_true in Hl. rewrite bool_decide_eq_true_2; [done |].
    by right.
  - apply bool_decide_eq_false in Hl. destruct (decide (k = f)) as [-> |].
    + rewrite bool_decide_eq_true_2 by left. by rewrite lookup_insert_eq.
    + rewrite bool_decide_eq_false_2.
      * by rewrite lookup_insert_ne.
      * by intros [? | ?]%elem_of_cons.
Qed.

(** X1.  A new task knows the fields of [Globals] and those [defaults]
    names, and no other; a field holds its default if it has one and [null]
    otherwise; nothing is marked as updated. *)
Theorem constructor_fields (f : string) :
  NoDup (map fst defaults) ->
  fields (constructor F defaults) !! f
  = match lookup_prop f defaults with
    | Some d => Some d
    | None => if bool_decide (f ∈ Globals.values F) then Some VNull else None
    end
  /\ updatedFields (constructor F defaults) = ∅.
Proof.
  intros Hnd. split; [| done]. unfold constructor. cbn [fields].
  rewrite fold_insert_lookup by done. by rewrite fold_null_lookup, lookup_empty.
Qed.

Lemma stored_array (w : World) (f : string) (elems : list value) :
  fields (this w) !! f = Some (VArr elems) -> stored f w = (Ok (VArr elems), w).
Proof. intros H. unfold stored, gets. by rewrite H. Qed.

Lemma indexOf_Some (elems : list value) (c : value) (i : nat) :
  indexOf elems c = Some i ->
  exists e, elems !! i = Some e /\ strict_eq e c = true
            /\ indexOf (take i elems) c = None.
Proof.
  revert i. induction elems as [| e elems IH]; intros i; simpl; [done |].
  destruct (strict_eq e c) eqn:He.
  - intros [= <-]. by exists e.
  - destruct (indexOf elems c) as [j |] eqn:Hj; simpl; [| done].
    intros [= <-]. destruct (IH j eq_refl) as (e' & Hl & Hs & Ht).
    exists e'. simpl. rewrite He, Ht. done.
Qed.

Lemma indexOf_snoc (elems : list value) (c : value) :
  indexOf elems c = None -> strict_eq c c = true ->
  indexOf (elems ++ [c]) c = Some (length elems).
Proof.
  intros Hnone Hc. induction elems as [| e elems IH]; simpl in *.
  - by rewrite Hc.
  - destruct (strict_eq e c); [done |].
    destruct (indexOf elems c); [done |]. by rewrite IH.
Qed.

Lemma indexOf_NaN (elems : list value) : indexOf elems VNaN = None.
Proof.
  induction elems as [| e elems IH]; [done |]. simpl.
  replace (strict_eq e VNaN) with false by (by destruct e). by rewrite IH.
Qed.

(** X4.  [addCategory] on a task whose categories are an array: a category
    that is there is not added again, one that is not goes last, and a second
    call changes nothing.  [NaN] is the exception: it is never found, so
    every call adds one. *)
Theorem addCategory_once (w : World) (cats : list value) (c : value) :
  fields (this w) !! Globals.CATEGORIES F = Some (VArr cats) ->
  (strict_eq c c = true ->
   exists w1 : World,
     addCategory F c w = (Ok tt, w1)
     /\ fields (this w1) !! Globals.CATEGORIES F
        = Some (VArr (match indexOf cats c with
                      | Some _ => cats
                      | None => (cats ++ [c])%list
                      end))
     /\ addCategory F c w1 = (Ok tt, w1))
  /\ (c = VNaN ->
      addCategory F c w
      = (Ok tt, (mutated (Globals.CATEGORIES F) (cats ++ [c])%list w).2)).
Proof.
  intros Hc. split.
  - intros Hrefl. unfold addCategory.
    rewrite bind_run, (stored_array _ _ _ Hc). rewrite bind_run.
    cbn [indexOf_of ret].
    destruct (indexOf cats c) as [i |] eqn:Hi.
    + exists w. split; [done |]. split; [done |].
      rewrite bind_run, (stored_array _ _ _ Hc). rewrite bind_run.
      cbn [indexOf_of ret]. by rewrite Hi.
    + eexists. split; [reflexivity |]. split.
      * simpl. by rewrite lookup_insert_eq.
      * rewrite bind_run.
        rewrite (stored_array _ _ (cats ++ [c])%list)
          by (simpl; by rewrite lookup_insert_eq).
        rewrite bind_run. cbn [indexOf_of ret].
        by rewrite indexOf_snoc.
  - intros ->. unfold addCategory.
    rewrite bind_run, (stored_array _ _ _ Hc). rewrite bind_run.
    cbn [indexOf_of ret]. by rewrite indexOf_NaN.
Qed.

Lemma splice1_snoc (elems : list value) (c : value) :
  splice1 (length elems) (elems ++ [c]) = elems.
Proof.
  unfold splice1. rewrite take_app_length.
  rewrite drop_app_ge by lia.
  replace (S (length elems) - length elems)%nat with 1%nat by lia.
  simpl. by rewrite app_nil_r.
Qed.

(** X5.  Adding a category that is not there and removing it again leaves
    the task as it was. *)
Theorem addCategory_then_removeCategory (w : World) (cats : list value)
  (c : value) :
  fields (this w) !! Globals.CATEGORIES F = Some (VArr cats) ->
  indexOf cats c = None ->
  strict_eq c c = true ->
  exists w1 : World,
    addCategory F c w = (Ok tt, w1)
    /\ removeCategory F c w1 = (Ok tt, w).
Proof.
  intros Hc Hnone Hrefl. eexists. split.
  - unfold addCategory.
    rewrite bind_run, (stored_array _ _ _ Hc). rewrite bind_run.
    cbn [indexOf_of ret]. rewrite Hnone. reflexivity.
  - unfold removeCategory. rewrite bind_run.
    rewrite (stored_array _ _ (cats ++ [c])%list)
      by (simpl; by rewrite lookup_insert_eq).
    rewrite bind_run. cbn [indexOf_of ret].
    rewrite indexOf_snoc by done. rewrite splice1_snoc.
    unfold mutated, modify. simpl. f_equal.
    destruct w as [[fs a b c' u gi ti] co rq]. simpl in *.
    unfold with_this, with_fields. simpl. f_equal. f_equal.
    rewrite insert_insert_eq. by apply insert_id.
Qed.

(** X6.  [removeCategory] takes out the first occurrence of a category and
    nothing else; for a category that is not there it writes one error to the
    console and changes nothing else, provided the name and the Google id of
    the task can be read for the message. *)
Theorem removeCategory_first (w : World) (cats : list value) (c : value) :
  fields (this w) !! Globals.CATEGORIES F = Some (VArr cats) ->
  match indexOf cats c with
  | Some i =>
      removeCategory F c w
      = (Ok tt, (mutated (Globals.CATEGORIES F)
                   (take i cats ++ drop (S i) cats)%list w).2)
      /\ indexOf (take i cats) c = None
      /\ (exists e, cats !! i = Some e /\ strict_eq e c = true)
  | None =>
      forall name gid,
        fields (this w) !! Globals.NAME F = Some name ->
        fields (this w) !! Globals.GOOGLE_ID F = Some gid ->
        removeCategory F c w
        = (Ok tt,
           logged Err ("Attempted to remove a task '" ++ to_string name
                       ++ "'(" ++ to_string gid
                       ++ ") from a category it wasn't in.") w)
  end.
Proof.
  intros Hc. destruct (indexOf cats c) as [i |] eqn:Hi.
  - destruct (indexOf_Some _ _ _ Hi) as (e & He & Hs & Ht).
    split; [| split; [done | by exists e]].
    unfold removeCategory. rewrite bind_run, (stored_array _ _ _ Hc).
    rewrite bind_run. cbn [indexOf_of ret]. by rewrite Hi.
  - intros name gid Hn Hg. unfold removeCategory.
    rewrite bind_run, (stored_array _ _ _ Hc).
    rewrite bind_run. cbn [indexOf_of ret]. rewrite Hi.
    rewrite bind_run, (getField_known _ _ _ Hn).
    rewrite bind_run, (getField_known _ _ _ Hg). reflexivity.
Qed.
End MoreTask.

Section Updates.
Import Js Eff Eff.Notations Task TrelloInterface.
Variable F : Globals.fields.
Variable categories : Globals.categories.
Variable categoryLists : list (string * value).
Variable customFields : Config.customFields.
Variable service : Requester.service.

Lemma sentAll_nil (w : World) : sentAll [] w = w.
Proof. destruct w. unfold sentAll. simpl. by rewrite app_nil_r. Qed.

Lemma sentAll_sent (req : Requester.request) (reqs : list Requester.request)
  (w : World) :
  sentAll reqs (sent req w) = sentAll (req :: reqs) w.
Proof. unfold sentAll, sent. simpl. by rewrite <- app_assoc. Qed.

(** The loop of [_updateAllFields]: either every field is answered with
    success, or the loop stops at the first that is not. *)
Lemma updateEach_spec (cardId : value) (raw : list (string * value))
  (w : World) :
  (updateEach service cardId raw w = (Ok tt, sentAll (updates cardId raw) w)
   /\ forall k kv, raw !! k = Some kv ->
        exists body,
          service (requests w ++ updates cardId (take k raw))%list
                  (Requester.updateCustomField cardId kv.1 kv.2)
          = Requester.Success body)
  \/ (exists n kv reason,
        raw !! n = Some kv
        /\ updateEach service cardId raw w
           = (Throw (Rejection reason),
              sentAll (updates cardId (take (S n) raw)) w)
        /\ service (requests w ++ updates cardId (take n raw))%list
                   (Requester.updateCustomField cardId kv.1 kv.2)
           = Requester.Failure reason
        /\ forall k kv', (k < n)%nat -> raw !! k = Some kv' ->
             exists body,
               service (requests w ++ updates cardId (take k raw))%list
                       (Requester.updateCustomField cardId kv'.1 kv'.2)
               = Requester.Success body).
Proof.
  revert w. induction raw as [| [field v] raw IH]; intros w.
  - left. split; [by rewrite sentAll_nil |]. intros k kv Hk. done.
  - cbn [updateEach]. rewrite bind_run. unfold send.
    destruct (service (requests w)
                (Requester.updateCustomField cardId field v))
      as [body | reason] eqn:Hanswer; cbv beta iota.
    + destruct (IH (sent (Requester.updateCustomField cardId field v) w))
        as [[Hrun Hall] | (n & kv & reason & Hn & Hrun & Hfail & Hbefore)].
      * left. split; [etrans; [exact Hrun | by rewrite sentAll_sent] |].
        intros [| k] kv Hk; simpl in Hk.
        -- injection Hk as <-. simpl. rewrite app_nil_r. by exists body.
        -- destruct (Hall k kv Hk) as [b Hb]. exists b.
           simpl in Hb |- *. by rewrite <- app_assoc in Hb.
      * right. exists (S n), kv, reason. split; [done |].
        split; [etrans; [exact Hrun | by rewrite sentAll_sent] |]. split.
        -- simpl in Hfail |- *. by rewrite <- app_assoc in Hfail.
        -- intros [| k] kv' Hlt Hk; simpl in Hk.
           ++ injection Hk as <-. simpl. rewrite app_nil_r. by exists body.
           ++ destruct (Hbefore k kv' ltac:(lia) Hk) as [b Hb]. exists b.
              simpl in Hb |- *. by rewrite <- app_assoc in Hb.
    + right. exists 0%nat, (field, v), reason. split; [done |].
      split; [reflexivity |]. split.
      * simpl. by rewrite app_nil_r.
      * intros k kv' Hlt. lia.
Qed.

(** What [_updateAllFields] returns and sends; it never throws. *)
Lemma updateAllFields_run (cardId : value) (raw : list (string * value))
  (w : World) :
  _updateAllFields service cardId raw w
  = (Ok (Fulfilled VUndefined), sentAll (updates cardId raw) w)
  \/ (exists n reason,
        (n < length raw)%nat
        /\ _updateAllFields service cardId raw w
           = (Ok (Rejected (Rejection reason)),
              sentAll (updates cardId (take (S n) raw)) w)).
Proof.
  unfold _updateAllFields, settle. rewrite bind_run.
  destruct (updateEach_spec cardId raw w)
    as [[Hrun _] | (n & kv & reason & Hn & Hrun & _)].
  - left. by rewrite Hrun.
  - right. exists n, reason. split; [by eapply lookup_lt_Some |].
    by rewrite Hrun.
Qed.

(** X7.  [_updateAllFields] sends the updates in order and stops at the
    first that fails: the promise is fulfilled when every update succeeded
    and rejected with the reason of the first failure otherwise, the later
    updates not being sent. *)
Theorem updateAllFields_stops_at_first_failure (cardId : value)
  (raw : list (string * value)) (w : World) :
  (_updateAllFields service cardId raw w
   = (Ok (Fulfilled VUndefined), sentAll (updates cardId raw) w)
   /\ forall k kv, raw !! k = Some kv ->
        exists body,
          service (requests w ++ updates cardId (take k raw))%list
                  (Requester.updateCustomField cardId kv.1 kv.2)
          = Requester.Success body)
  \/ (exists n kv reason,
        raw !! n = Some kv
        /\ _updateAllFields service cardId raw w
           = (Ok (Rejected (Rejection reason)),
              sentAll (updates cardId (take (S n) raw)) w)
        /\ service (requests w ++ updates cardId (take n raw))%list
                   (Requester.updateCustomField cardId kv.1 kv.2)
           = Requester.Failure reason
        /\ forall k kv', (k < n)%nat -> raw !! k = Some kv' ->
             exists body,
               service (requests w ++ updates cardId (take k raw))%list
                       (Requester.updateCustomField cardId kv'.1 kv'.2)
               = Requester.Success body).
Proof.
  unfold _updateAllFields, settle. rewrite bind_run.
  destruct (updateEach_spec cardId raw w)
    as [[Hrun Hall] | (n & kv & reason & Hn & Hrun & Hfail & Hbefore)].
  - left. by rewrite Hrun.
  - right. exists n, kv, reason. by rewrite Hrun.
Qed.

Lemma reads_ret {A : Type} (a : A) : reads (ret a).
Proof. by intros w. Qed.

Lemma reads_lift {A : Type} (r : result A) : reads (lift r).
Proof. by intros w. Qed.

Lemma reads_throw {A : Type} (e : error) : reads (throw (A := A) e).
Proof. by intros w. Qed.

Lemma reads_bind {A B : Type} (m : M World A) (k : A -> M World B) :
  reads m -> (forall a, reads (k a)) -> reads (bind m k).
Proof.
  intros Hm Hk w. unfold bind. specialize (Hm w).
  destruct (m w) as [[a | e] w1]; simpl in Hm; subst w1; [apply Hk | done].
Qed.

Lemma reads_getField (f : string) : reads (getField f).
Proof. intros w. apply getField_pure. Qed.

Lemma reads_getCustomFieldFromTask (f : string) :
  reads (getCustomFieldFromTask f).
Proof.
  apply reads_bind; [apply reads_getField | intros v; apply reads_lift].
Qed.

Lemma reads_serialiseTags : reads (serialiseTags F).
Proof.
  apply reads_bind; [apply reads_getField |].
  intros []; first [apply reads_ret | apply reads_throw].
Qed.

Lemma reads_includes_of (receiver v : value) : reads (includes_of receiver v).
Proof. destruct receiver; first [apply reads_ret | apply reads_throw]. Qed.

Lemma reads_serialiseCategories :
  reads (serialiseCategories F categories customFields).
Proof.
  unfold serialiseCategories.
  apply reads_bind; [apply reads_getField | intros cats].
  repeat (apply reads_bind; [apply reads_includes_of | intros ?]).
  apply reads_ret.
Qed.

Lemma reads_customToRaw : reads (customToRaw F categories customFields).
Proof.
  unfold customToRaw.
  apply reads_bind; [apply reads_serialiseCategories | intros ?].
  apply reads_bind; [apply reads_serialiseTags | intros ?].
  repeat (apply reads_bind; [apply reads_getCustomFieldFromTask | intros ?]).
  apply reads_ret.
Qed.

Lemma reads_quiet {A : Type} (m : M World A) : reads m -> quiet m.
Proof. intros H w. by rewrite H. Qed.

Lemma quiet_bind {A B : Type} (m : M World A) (k : A -> M World B) :
  quiet m -> (forall a, quiet (k a)) -> quiet (bind m k).
Proof.
  intros Hm Hk w. unfold bind. specialize (Hm w).
  destruct (m w) as [[a | e] w1]; simpl in Hm; [| done].
  destruct (Hk a w1) as [H1 H2]. destruct Hm as [H3 H4]. split; congruence.
Qed.

Lemma quiet_print (l : level) (msg : string) : quiet (print l msg).
Proof. by intros w. Qed.

Lemma quiet_writeField (alteredField : string) (rawCustom : list (string * value)) :
  mainField F alteredField = false ->
  quiet (writeField F categories categoryLists customFields service
           alteredField rawCustom).
Proof.
  unfold mainField, writeField. intros ->.
  repeat match goal with
         | |- quiet (if ?c then _ else _) => destruct c
         end;
    (apply quiet_bind;
     [ first [ apply quiet_print
             | apply reads_quiet;
               first [ apply reads_serialiseCategories
                     | apply reads_serialiseTags
                     | apply reads_getCustomFieldFromTask ] ]
     | intros ?; apply reads_quiet, reads_ret ]).
Qed.

Lemma quiet_writeEach (alteredFields : list string)
  (rawCustom : list (string * value)) :
  Forall (fun f => mainField F f = false) alteredFields ->
  quiet (writeEach F categories categoryLists customFields service
           alteredFields rawCustom).
Proof.
  intros Hall. revert rawCustom.
  induction Hall as [| f fs Hf Hfs IH]; intros rawCustom.
  - apply reads_quiet, reads_ret.
  - cbn [writeEach]. apply quiet_bind; [by apply quiet_writeField | apply IH].
Qed.

(** X8.  When neither the name nor the description is among the fields to
    write, [writeFields] leaves the task as it is and sends nothing but
    updates of custom fields of the card of the task; it never throws. *)
Theorem writeFields_custom_only (alteredFields : list string) (w : World) :
  Forall (fun f => mainField F f = false) alteredFields ->
  exists (p : settled) (w' : World) (reqs : list Requester.request),
    writeFields F categories categoryLists customFields service
      alteredFields w = (Ok p, w')
    /\ this w' = this w
    /\ requests w' = (requests w ++ reqs)%list
    /\ forall r, r ∈ reqs ->
         exists id field raw,
           r = Requester.updateCustomField id field raw
           /\ fields (this w) !! Globals.TRELLO_ID F = Some id.
Proof.
  intros Hall. unfold writeFields, settle. rewrite bind_run.
  destruct (quiet_writeEach alteredFields [] Hall w) as [Hthis Hreq].
  destruct (writeEach _ _ _ _ _ alteredFields [] w) as [[rawCustom | e] w1];
    simpl in Hthis, Hreq.
  2:{ exists (Rejected e), w1, []. rewrite app_nil_r.
      repeat split; try done. intros r Hr. by apply elem_of_nil in Hr. }
  rewrite bind_run.
  destruct (fields (this w1) !! Globals.TRELLO_ID F) as [id |] eqn:Hid.
  2:{ rewrite (getField_unknown _ _ Hid).
      eexists _, w1, []. rewrite app_nil_r.
      repeat split; try done. intros r Hr. by apply elem_of_nil in Hr. }
  rewrite (getField_known _ _ _ Hid). rewrite bind_run. unfold await.
  assert (Hupd : forall n r,
    r ∈ updates id (take n rawCustom) ->
    exists id0 field raw,
      r = Requester.updateCustomField id0 field raw
      /\ fields (this w) !! Globals.TRELLO_ID F = Some id0).
  { intros n r (kv & -> & _)%list_elem_of_fmap.
    exists id, kv.1, kv.2. split; [done |]. by rewrite <- Hthis. }
  destruct (updateAllFields_run id rawCustom w1)
    as [Hrun | (n & reason & _ & Hrun)]; rewrite Hrun.
  - eexists _, _, (updates id rawCustom). split; [reflexivity |].
    split; [done |]. split; [simpl; by rewrite Hreq |].
    intros r Hr. apply (Hupd (length rawCustom)). by rewrite firstn_all.
  - eexists _, _, (updates id (take (S n) rawCustom)).
    split; [reflexivity |].
    split; [done |]. split; [simpl; by rewrite Hreq |]. apply Hupd.
Qed.
End Updates.

Section WriteTask.
Import Js Eff Eff.Notations Task TrelloInterface.
Variable F : Globals.fields.
Variable categories : Globals.categories.
Variable categoryLists : list (string * value).
Variable customFields : Config.customFields.
Variable service : Requester.service.

Lemma pop_effect (f : string) (receiver : value) (w w' : World)
  (r : result value) :
  pop f receiver w = (r, w') ->
  requests w' = requests w /\ console w' = console w
  /\ updatedFields (this w') = updatedFields (this w).
Proof.
  unfold pop. destruct receiver; try (intros [= <- <-]; done).
Qed.

(** [createCard] fulfils its promise only after the service created the card
    and [setField] wrote its id. *)
Lemma createCard_fulfilled (w w' : World) (v : value) :
  createCard F categoryLists service w = (Ok (Fulfilled v), w') ->
  exists raw,
    requests w' = (requests w ++ [Requester.createCard raw])%list
    /\ Globals.TRELLO_ID F ∈ updatedFields (this w').
Proof.
  unfold createCard. rewrite bind_run.
  pose proof (getField_pure (Globals.CATEGORIES F) w) as Hpure.
  destruct (getField (Globals.CATEGORIES F) w) as [[cardCategories | e] w0];
    simpl in Hpure; subst w0; [| done].
  rewrite bind_run. unfold lift at 1.
  destruct (get cardCategories "length") as [len | e]; [| done].
  rewrite bind_run.
  assert (Hlist : exists (listId : value) (w1 : World),
    requests w1 = requests w /\
    forall (k : value -> M World settled) (x : result settled * World),
      (let (r, s') :=
         (if negb (strict_eq len (VNum 0))
          then
            let* category := pop (Globals.CATEGORIES F) cardCategories in
            let* key := lift (toString category) in
            ret (default VUndefined (lookup_prop key categoryLists))
          else ret (default VUndefined (lookup_prop "1" categoryLists))) w in
       match r with
       | Ok a => k a s'
       | Throw e => (Throw e, s')
       end) = x ->
      x = k listId w1 \/ exists e w2, x = (Throw e, w2)).
  { destruct (negb (strict_eq len (VNum 0))).
    - rewrite !bind_run.
      destruct (pop (Globals.CATEGORIES F) cardCategories w)
        as [[category | e] w1] eqn:Hpop.
      + apply pop_effect in Hpop as (Hreq & _).
        unfold lift. destruct (toString category) as [key | e].
        * eexists _, w1. split; [done |]. intros k x <-. by left.
        * exists VUndefined, w. split; [done |]. intros k x <-. right. eauto.
      + exists VUndefined, w. split; [done |]. intros k x <-. right. eauto.
    - eexists _, w. split; [done |]. intros k x <-. by left. }
  destruct Hlist as (listId & w1 & Hreq1 & Hlist).
  intros Hrun. apply Hlist in Hrun as [Hrun | (e & w2 & [=])].
  symmetry in Hrun. revert Hrun. rewrite bind_run.
  pose proof (mainToRaw_pure F w1) as Hraw.
  destruct (mainToRaw F w1) as [[rawMain | e] w2]; simpl in Hraw; subst w2;
    [| done].
  rewrite bind_run. unfold send at 1.
  destruct (service (requests w1) _) as [response | reason]; [| done].
  unfold settle. rewrite bind_run. unfold lift at 1.
  destruct (get response "id") as [id | e]; [| done].
  rewrite bind_run.
  match goal with
  | |- context [setField ?f ?v ?x] =>
      destruct (fields (this x) !! f) as [old |] eqn:Hknown;
      [ rewrite (setField_known x f v) by eauto
      | destruct (setField_unknown x f v Hknown) as [e ->]; done ]
  end.
  intros [= <- <-]. eexists. split.
  - simpl. by rewrite Hreq1.
  - apply written_dirty.
Qed.

(** [writeOrCreate] fulfils its promise either after an update alone, the
    task being as before, or after a card was created. *)
Lemma writeOrCreate_fulfilled (w w' : World) (v : value) :
  writeOrCreate F categoryLists service w = (Ok (Fulfilled v), w') ->
  (exists id raw,
     requests w' = (requests w ++ [Requester.updateCardMain id raw])%list
     /\ this w' = this w)
  \/ (exists reqs raw,
        requests w' = (requests w ++ reqs ++ [Requester.createCard raw])%list
        /\ Globals.TRELLO_ID F ∈ updatedFields (this w')).
Proof.
  unfold writeOrCreate. rewrite bind_run.
  pose proof (getField_pure (Globals.TRELLO_ID F) w) as Hpure.
  destruct (getField (Globals.TRELLO_ID F) w) as [[id | e] w0] eqn:Hid;
    simpl in Hpure; subst w0; [| done].
  destruct (truthy id).
  - rewrite bind_run, Hid. rewrite bind_run.
    pose proof (mainToRaw_pure F w) as Hraw.
    destruct (mainToRaw F w) as [[rawMain | e] w0]; simpl in Hraw; subst w0;
      [| done].
    rewrite bind_run. unfold send at 1.
    destruct (service (requests w) _) as [response | reason].
    + intros [= <- <-]. left. by eexists _, _.
    + unfold settle at 1. rewrite bind_run. unfold lift at 1.
      destruct (get reason "statusCode") as [statusCode | e]; [| done].
      destruct (strict_eq statusCode (VNum 404)).
      * rewrite bind_run.
        match goal with
        | |- context [getField ?f ?x] =>
            pose proof (getField_pure f x) as Hn;
            destruct (getField f x) as [[name | e] w0]; simpl in Hn;
            subst w0; [| done]
        end.
        rewrite bind_run. unfold print at 1, modify at 1.
        match goal with
        | |- context [createCard F categoryLists service ?x] =>
            destruct (createCard F categoryLists service x)
              as [[[u | e] | e] w2] eqn:Hcreate; try done
        end.
        intros [= <- <-]. apply createCard_fulfilled in Hcreate
          as (raw & Hreq & Hdirty).
        right. eexists [_], raw. split; [| done].
        rewrite Hreq. simpl. by rewrite <- app_assoc.
      * intros [= <- <-]. left. by eexists _, _.
  - intros (raw & Hreq & Hdirty)%createCard_fulfilled.
    right. by exists [], raw.
Qed.

(** X9.  [writeTask] sets [trelloCardMade] exactly when it had a card
    created: whenever its promise is fulfilled, the flag tells whether a
    request to create a card is among the requests it sent. *)
Theorem writeTask_tells_creation (w w' : World) :
  writeTask F categories categoryLists customFields service w
  = (Ok Written, w') ->
  exists reqs,
    requests w' = (requests w ++ reqs)%list
    /\ (trelloCardMade (this w') = true
        <-> exists raw, Requester.createCard raw ∈ reqs).
Proof.
  unfold writeTask. rewrite bind_run.
  unfold resetUpdatedFields at 1, modify at 1.
  set (w0 := with_this (with_updatedFields (fun _ => ∅)) w).
  rewrite bind_run.
  pose proof (reads_customToRaw F categories customFields w0) as Hraw.
  destruct (customToRaw F categories customFields w0)
    as [[rawCustomFields | e] w0']; simpl in Hraw; subst w0'; [| done].
  rewrite bind_run.
  destruct (writeOrCreate F categoryLists service w0)
    as [[[v | e] | e] w1] eqn:Hwrite; try done.
  rewrite bind_run. unfold settle at 1. rewrite bind_run.
  pose proof (getField_pure (Globals.TRELLO_ID F) w1) as Hpure.
  destruct (getField (Globals.TRELLO_ID F) w1) as [[id | e] w1'];
    simpl in Hpure; subst w1'; [| done].
  destruct (updateAllFields_run service id rawCustomFields w1)
    as [Hrun | (n & reason & _ & Hrun)]; rewrite Hrun; [| done].
  set (w2 := sentAll _ w1).
  rewrite bind_run. unfold wasFieldUpdated at 1, gets at 1.
  rewrite bind_run.
  pose proof (getField_pure (Globals.NAME F) w2) as Hn.
  destruct (getField (Globals.NAME F) w2) as [[name | e] w2'];
    simpl in Hn; subst w2'; [| done].
  assert (Hcustom : forall raw,
    ~ Requester.createCard raw ∈ updates id rawCustomFields).
  { intros raw (kv & [=] & _)%list_elem_of_fmap. }
  apply writeOrCreate_fulfilled in Hwrite
    as [(id0 & raw0 & Hreq & Hthis) | (reqs & raw & Hreq & Hdirty)].
  - rewrite bool_decide_eq_false_2.
    2:{ subst w2. simpl. rewrite Hthis. simpl. apply not_elem_of_empty. }
    intros [= <-]. eexists (_ :: updates id rawCustomFields).
    split.
    + simpl. rewrite Hreq. simpl. by rewrite <- app_assoc.
    + simpl. split; [done |].
      intros [raw [[=] | Hin]%elem_of_cons]. by apply Hcustom in Hin.
  - rewrite bool_decide_eq_true_2 by done.
    intros [= <-].
    eexists ((reqs ++ [Requester.createCard raw]) ++ updates id rawCustomFields)%list.
    split.
    + simpl. rewrite Hreq. simpl. by rewrite <- !app_assoc.
    + simpl. split; [| done]. intros _. exists raw.
      rewrite !elem_of_app, list_elem_of_singleton. tauto.
Qed.
End WriteTask.

Section Load.
Import Js Eff Eff.Notations Task TrelloInterface.
Variable F : Globals.fields.
Variable categories : Globals.categories.
Variable categoryLists : list (string * value).
Variable customFields : Config.customFields.

Lemma loaded_same (offered : list string) (w w' : World) :
  fields (this w') = fields (this w) ->
  updatedFields (this w') = updatedFields (this w) ->
  requests w' = requests w -> loaded offered w w'.
Proof.
  intros Hfields Hupdated Hreq. unfold loaded. rewrite Hfields, Hupdated.
  repeat split; try done.
  intros g v Hg Hv. exists v. split; [done | by left].
Qed.

Lemma loaded_trans (offered : list string) (w w1 w2 : World) :
  loaded offered w w1 -> loaded offered w1 w2 -> loaded offered w w2.
Proof.
  intros (R1 & U1 & C1 & O1 & K1 & E1) (R2 & U2 & C2 & O2 & K2 & E2).
  split; [congruence |]. split; [by transitivity (updatedFields (this w1)) |].
  split; [| split; [| split]].
  - intros g Hg. rewrite C2 by done. apply C1. intros Hin. apply Hg.
    by apply U2.
  - intros g Hg. destruct (O1 g Hg) as [F1 M1], (O2 g Hg) as [F2 M2].
    split; [congruence | tauto].
  - intros g. by rewrite K2.
  - intros g v Hg Hv. destruct (E1 g v Hg Hv) as (v1 & Hg1 & Hk1).
    assert (Hv1 : v1 <> VNull) by (destruct Hk1 as [-> | [? _]]; done).
    destruct (E2 g v1 Hg1 Hv1) as (v2 & Hg2 & Hk2).
    exists v2. split; [done |].
    destruct Hk2 as [-> | ?]; [done | by right].
Qed.

Lemma loads_bind {A B : Type} (offered : list string) (m : M World A)
  (k : A -> M World B) :
  loads offered m -> (forall a, loads offered (k a)) ->
  loads offered (bind m k).
Proof.
  intros Hm Hk w. unfold bind. specialize (Hm w).
  destruct (m w) as [[a | e] w1]; simpl in Hm; [| done].
  eapply loaded_trans; [exact Hm | apply Hk].
Qed.

Lemma loads_lift {A : Type} (offered : list string) (r : result A) :
  loads offered (lift r).
Proof. intros w. by apply loaded_same. Qed.

Lemma loads_ret {A : Type} (offered : list string) (a : A) :
  loads offered (ret a).
Proof. intros w. by apply loaded_same. Qed.

Lemma loads_setIfData (offered : list string) (f : string) (v : value) :
  f ∈ offered -> loads offered (setIfData f v).
Proof.
  intros Hf w.
  destruct (fields (this w) !! f) as [current |] eqn:Hcur.
  2:{ unfold setIfData, bind. rewrite (getField_unknown _ _ Hcur).
      by apply loaded_same. }
  assert (Hwritten :
    (current = VNull \/ (v <> VNull /\ nothing v = false)) ->
    loaded offered w (written f v w)).
  { intros Hwhy. split; [done |]. split; [simpl; apply union_subseteq_r |].
    split; [| split; [| split]].
    - intros g Hg. rewrite written_fields. rewrite decide_False; [done |].
      intros <-. apply Hg. apply written_dirty.
    - intros g Hg. assert (f <> g) by (intros <-; done).
      rewrite written_fields. rewrite decide_False by done. split; [done |].
      simpl. rewrite elem_of_union, elem_of_singleton.
      intros [-> | ?]; done.
    - intros g. rewrite written_fields. destruct (decide (f = g)) as [<- |];
        [| done]. rewrite Hcur. split; eauto.
    - intros g x Hg Hx. rewrite written_fields.
      destruct (decide (f = g)) as [<- |].
      + exists v. split; [done |].
        destruct Hwhy as [-> | Hdata]; [congruence | by right].
      + exists x. split; [done | by left]. }
  assert (Hnull : forall x : value, x = VNull \/ x <> VNull)
    by (intros []; (by left) || (by right)).
  destruct (Hnull current) as [-> | Hdata].
  - destruct (setIfData_onto_null w f v Hcur) as [-> _].
    apply Hwritten. by left.
  - destruct (Hnull v) as [-> | Hv].
    + rewrite (setIfData_null_onto_data w f current) by done.
      by apply loaded_same.
    + destruct (nothing v) eqn:Hn.
      * rewrite (setIfData_nothing w f current v) by done.
        by apply loaded_same.
      * rewrite (setIfData_data w f current v) by done.
        apply Hwritten. by right.
Qed.

Lemma loads_print (offered : list string) (l : level) (msg : string) :
  loads offered (print l msg).
Proof. intros w. by apply loaded_same. Qed.

Lemma loads_taskCategories (offered : list string) (rawCard : value) :
  loads offered (taskCategories categories categoryLists customFields rawCard).
Proof.
  unfold taskCategories.
  repeat (apply loads_bind; [apply loads_lift | intros ?]).
  match goal with
  | |- loads _ (match ?x with _ => _ end) => destruct x
  end.
  - match goal with
    | |- loads _ (if ?c then _ else _) => destruct c
    end.
    + apply loads_bind; [| intros ?; apply loads_ret].
      intros w. by apply loaded_same.
    + apply loads_ret.
  - repeat (apply loads_bind; [apply loads_lift | intros ?]).
    apply loads_bind; [apply loads_print | intros ?; apply loads_ret].
Qed.

Lemma loads_parseCategories (offered : list string) (rawCard : value) :
  Globals.CATEGORIES F ∈ offered ->
  loads offered
    (parseCategories F categories categoryLists customFields rawCard).
Proof.
  intros Hin. apply loads_bind; [apply loads_taskCategories |].
  intros cats. by apply loads_setIfData.
Qed.

Ltac offered :=
  unfold loadedFields; rewrite !elem_of_cons; repeat first [by left | right].

Lemma loads_loadIntoTask (rawCard : value) :
  loads (loadedFields F)
    (loadIntoTask F categories categoryLists customFields rawCard).
Proof.
  unfold loadIntoTask.
  repeat first
    [ apply loads_setIfData; offered
    | apply loads_bind;
      [ first [ apply loads_lift
              | apply loads_parseCategories; offered
              | apply loads_setIfData; offered ]
      | intros ? ] ].
Qed.
(** X11.  Loading a card never loses data.  A field that holds a value
    other than [null] holds, after [loadIntoTask], that value or another that
    is neither [null] nor empty; this is so also when [loadIntoTask] throws
    on the way. *)
Theorem loadIntoTask_keeps_data (rawCard : value) (w : World) (g : string)
  (v : value) :
  fields (this w) !! g = Some v -> v <> VNull ->
  exists v',
    fields (this (loadIntoTask F categories categoryLists customFields
                    rawCard w).2) !! g = Some v'
    /\ v' <> VNull
    /\ (v' = v \/ nothing v' = false).
Proof.
  intros Hg Hv.
  destruct (loads_loadIntoTask rawCard w) as (_ & _ & _ & _ & _ & Hkept).
  destruct (Hkept g v Hg Hv) as (v' & Hg' & Hk).
  exists v'. split; [done |].
  destruct Hk as [-> | [Hn Hd]]; [split; [done | by left] |].
  split; [done | by right].
Qed.

(** X12.  [loadIntoTask] sends nothing, neither adds a field to the task nor
    takes one away, and unmarks no field.  A field is either left as it was,
    or it is one of the ten fields a card is loaded into and is marked as
    updated afterwards; this is so also when [loadIntoTask] throws on the
    way. *)
Theorem loadIntoTask_marks_changes (rawCard : value) (w : World)
  (g : string) :
  let w' := (loadIntoTask F categories categoryLists customFields
               rawCard w).2 in
  requests w' = requests w
  /\ (is_Some (fields (this w') !! g) <-> is_Some (fields (this w) !! g))
  /\ (g ∈ updatedFields (this w) -> g ∈ updatedFields (this w'))
  /\ ((fields (this w') !! g = fields (this w) !! g
       /\ (g ∈ updatedFields (this w') <-> g ∈ updatedFields (this w)))
      \/ (g ∈ updatedFields (this w') /\ g ∈ loadedFields F)).
Proof.
  intros w'.
  destruct (loads_loadIntoTask rawCard w)
    as (Hreq & Hsub & Hclean & Hout & Hknown & _).
  fold w' in Hreq, Hsub, Hclean, Hout, Hknown.
  split; [done |]. split; [apply Hknown |]. split; [apply Hsub |].
  destruct (decide (g ∈ updatedFields (this w'))) as [Hin | Hnot].
  - destruct (decide (g ∈ loadedFields F)) as [Hl | Hl]; [by right |].
    left. destruct (Hout g Hl) as [Hsame Hback]. split; [done |].
    split; [done | apply Hsub].
  - left. split; [by apply Hclean |]. split; [done |].
    intros Hold. exfalso. apply Hnot. by apply Hsub.
Qed.
End Load.

Section Tags.
Import Js Eff Eff.Notations Task TrelloInterface.
Variable F : Globals.fields.
Variable customFields : Config.customFields.

Lemma split_nonempty (sep : ascii) (s : string) : split sep s <> [].
Proof.
  destruct s as [| c s]; simpl; [done |].
  destruct (Ascii.eqb c sep); [done |]. by destruct (split sep s).
Qed.

Lemma split_app (t s : string) :
  split "," t = [t] ->
  split "," (t ++ String "," s) = t :: split "," s.
Proof.
  induction t as [| c t IH]; simpl; [done |].
  destruct (Ascii.eqb c ",") eqn:Hc; [done |].
  destruct (split "," t) as [| piece pieces] eqn:Ht; [by destruct (split_nonempty "," t) |].
  intros [= -> ->]. by rewrite IH.
Qed.

Lemma split_space (s : string) :
  split "," (String " " s)
  = match split "," s with
    | piece :: pieces => String " " piece :: pieces
    | [] => [String " " ""]
    end.
Proof. reflexivity. Qed.

Lemma trim_space (s : string) : trim (String " " s) = trim s.
Proof. reflexivity. Qed.

Lemma join_strings (sep : string) (tags : list string) :
  join sep (map VStr tags) = String.concat sep tags.
Proof.
  unfold join. f_equal. induction tags as [| t tags IH]; simpl; [done |].
  by rewrite IH.
Qed.

Lemma split_join (tags : list string) :
  tags <> [] -> Forall clean tags ->
  map trim (split "," (String.concat ", " tags)) = tags.
Proof.
  induction tags as [| t tags IH]; [done |]. intros _ Hclean.
  apply Forall_cons in Hclean as [(Hsplit & Htrim & _) Hclean].
  destruct tags as [| t' tags].
  - simpl. rewrite Hsplit. simpl. by rewrite Htrim.
  - change (String.concat ", " (t :: t' :: tags))
      with (t ++ String "," (String " " (String.concat ", " (t' :: tags)))).
    rewrite split_app by done. rewrite split_space.
    specialize (IH ltac:(done) Hclean).
    destruct (split "," (String.concat ", " (t' :: tags)))
      as [| piece pieces] eqn:Hpieces;
      [by destruct (split_nonempty "," (String.concat ", " (t' :: tags))) |].
    simpl in IH |- *. rewrite Htrim, trim_space. by rewrite IH.
Qed.

Lemma concat_empty (tags : list string) :
  String.concat ", " tags = "" -> tags = [] \/ tags = [""].
Proof.
  destruct tags as [| t [| t' tags]]; simpl.
  - by left.
  - intros ->. by right.
  - destruct t; simpl; done.
Qed.

(** X13.  The tags [serialiseTags] writes are the tags [parseTags] reads
    from a card that carries what was written, for clean tags; the list with
    the empty tag alone comes back as the empty list. *)
Theorem tags_round_trip (w : World) (tags : list string) (rawCard : value) :
  fields (this w) !! Globals.TAGS F = Some (VArr (map VStr tags)) ->
  Forall clean tags ->
  exists raw,
    serialiseTags F w = (Ok raw, w)
    /\ (getCustomFieldFromData (Config.tags customFields) rawCard
        = customFieldToValue raw ->
        parseTags customFields rawCard
        = Ok (if bool_decide (tags = [""]) then [] else map VStr tags)).
Proof.
  intros Htags Hclean. eexists. split.
  - unfold serialiseTags. rewrite bind_run, (getField_known _ _ _ Htags).
    reflexivity.
  - rewrite join_strings.
    assert (Hdecode : forall s,
      customFieldToValue (VObj [("value", VObj [("text", VStr s)])])
      = Ok (VStr s)) by reflexivity.
    rewrite Hdecode. unfold parseTags. intros ->.
    cbn [and_then strict_eq negb andb].
    destruct (String.eqb (String.concat ", " tags) "") eqn:Hempty.
    + apply String.eqb_eq, concat_empty in Hempty as [-> | ->]; by simpl.
    + apply String.eqb_neq in Hempty. cbn [negb].
      rewrite bool_decide_eq_false_2 by (intros ->; done).
      f_equal. rewrite <- (split_join tags) at 2; [| | done].
      * by rewrite map_map.
      * intros ->. done.
Qed.
End Tags.

Section Matching.
Import Js Eff Eff.Notations Task TrelloInterface.
Variable F : Globals.fields.
Variable categories : Globals.categories.
Variable categoryLists : list (string * value).
Variable customFields : Config.customFields.
Variable service : Requester.service.

Lemma find_item (fieldId : string) (before after : list value) (item : value) :
  Forall (otherItem fieldId) before ->
  find (fun checkField =>
          let+ id := get checkField "idCustomField" in
          Ok (strict_eq id (VStr fieldId))) (before ++ item :: after)
  = (let+ found := (let+ id := get item "idCustomField" in
                    Ok (strict_eq id (VStr fieldId))) in
     if found then Ok (Some item)
     else find (fun checkField =>
                  let+ id := get checkField "idCustomField" in
                  Ok (strict_eq id (VStr fieldId))) after).
Proof.
  induction 1 as [| other before (props & -> & Hother) _ IH]; [done |].
  simpl. rewrite Hother. simpl. apply IH.
Qed.

Lemma find_no_item (fieldId : string) (items : list value) :
  Forall (otherItem fieldId) items ->
  find (fun checkField =>
          let+ id := get checkField "idCustomField" in
          Ok (strict_eq id (VStr fieldId))) items
  = Ok None.
Proof.
  induction 1 as [| other before (props & -> & Hother) _ IH]; [done |].
  simpl. rewrite Hother. simpl. apply IH.
Qed.

(** X15.  Reading a custom field off a card: [undefined] when the card has
    no custom field items or none for the field, and otherwise what the first
    item for the field decodes to, whatever comes after it. *)
Theorem getCustomFieldFromData_first_item (fieldId : string)
  (card : list (string * value)) :
  (lookup_prop "customFieldItems" card = None ->
   getCustomFieldFromData fieldId (VObj card) = Ok VUndefined)
  /\ (forall items,
        lookup_prop "customFieldItems" card = Some (VArr items) ->
        Forall (otherItem fieldId) items ->
        getCustomFieldFromData fieldId (VObj card) = Ok VUndefined)
  /\ (forall before item after,
        lookup_prop "customFieldItems" card
        = Some (VArr (before ++ item :: after)) ->
        Forall (otherItem fieldId) before ->
        itemFor fieldId item ->
        getCustomFieldFromData fieldId (VObj card) = customFieldToValue item).
Proof.
  unfold getCustomFieldFromData. split; [| split].
  - intros Hnone. simpl. rewrite Hnone.
    by rewrite bool_decide_eq_false_2 by (by intros [? ?]).
  - intros items Hitems Hothers. simpl. rewrite Hitems.
    rewrite bool_decide_eq_true_2 by eauto. simpl.
    by rewrite find_no_item.
  - intros before item after Hitems Hothers (props & -> & Hid).
    simpl. rewrite Hitems.
    rewrite bool_decide_eq_true_2 by eauto. simpl.
    rewrite find_item by done. simpl. rewrite Hid. simpl.
    by rewrite String.eqb_refl.
Qed.

(** X16.  Whether a task matches a card: by Trello id, or else by the Google
    id of the card if the card has one. *)
Theorem doesTaskMatchData_spec (w : World) (data ownTrello ownGoogle id g : value) :
  getCustomFieldFromData (Config.googleId customFields) data = Ok g ->
  get data "id" = Ok id ->
  fields (this w) !! Globals.TRELLO_ID F = Some ownTrello ->
  fields (this w) !! Globals.GOOGLE_ID F = Some ownGoogle ->
  exists r,
    doesTaskMatchData F customFields data w = (Ok r, w)
    /\ truthy r = strict_eq ownTrello id || (truthy g && strict_eq ownGoogle g).
Proof.
  intros Hg Hid Ht Ho. unfold doesTaskMatchData.
  rewrite bind_run. unfold lift at 1. rewrite Hg.
  rewrite bind_run, (getField_known _ _ _ Ht).
  rewrite bind_run. unfold lift at 1. rewrite Hid.
  destruct (strict_eq ownTrello id); [by eexists |].
  destruct (truthy g) eqn:Htruthy.
  - rewrite bind_run, (getField_known _ _ _ Ho). eexists. split; [done |].
    by destruct (strict_eq ownGoogle g).
  - by eexists.
Qed.
End Matching.

Section Serialising.
Import Js Eff Eff.Notations Task TrelloInterface.
Variable F : Globals.fields.
Variable categories : Globals.categories.
Variable categoryLists : list (string * value).
Variable customFields : Config.customFields.
Variable service : Requester.service.

Lemma lookup_set_prop_ne (k k' : string) (v : value)
  (props : list (string * value)) :
  k <> k' -> lookup_prop k (set_prop k' v props) = lookup_prop k props.
Proof.
  intros Hne. induction props as [| [k0 v0] props IH]; simpl.
  - by rewrite (proj2 (String.eqb_neq k k')).
  - destruct (String.eqb k' k0) eqn:Hk'; simpl.
    + apply String.eqb_eq in Hk' as <-.
      by rewrite (proj2 (String.eqb_neq k k')).
    + destruct (String.eqb k k0); [done | apply IH].
Qed.

(** X17.  The five custom fields [serialiseCategories] stages, when their
    ids differ: each is a checkbox, checked exactly when the category is in
    the list of the task. *)
Theorem serialiseCategories_checkboxes (w : World) (cats : list value) :
  fields (this w) !! Globals.CATEGORIES F = Some (VArr cats) ->
  NoDup [Config.isCode customFields; Config.isQa customFields;
         Config.isOutResearch customFields; Config.isDocs customFields;
         Config.isDesign customFields] ->
  exists raw,
    serialiseCategories F categories customFields w = (Ok raw, w)
    /\ length raw = 5%nat
    /\ lookup_prop (Config.isCode customFields) raw
       = Some (checkbox (includes cats (VNum (Globals.CODING categories))))
    /\ lookup_prop (Config.isQa customFields) raw
       = Some (checkbox (includes cats (VNum (Globals.QA categories))))
    /\ lookup_prop (Config.isOutResearch customFields) raw
       = Some (checkbox (includes cats (VNum (Globals.OUTRESEARCH categories))))
    /\ lookup_prop (Config.isDocs customFields) raw
       = Some (checkbox (includes cats (VNum (Globals.DOCS_TRAINING categories))))
    /\ lookup_prop (Config.isDesign customFields) raw
       = Some (checkbox (includes cats (VNum (Globals.DESIGN categories)))).
Proof.
  intros Hc Hnd. eexists. split.
  - unfold serialiseCategories. rewrite bind_run, (getField_known _ _ _ Hc).
    reflexivity.
  - apply NoDup_cons in Hnd as [H1 Hnd]. apply NoDup_cons in Hnd as [H2 Hnd].
    apply NoDup_cons in Hnd as [H3 Hnd]. apply NoDup_cons in Hnd as [H4 _].
    repeat match goal with
           | H : _ ∉ _ :: _ |- _ => apply not_elem_of_cons in H as [? H]
           end.
    repeat split.
    + cbn [set_prop].
      repeat (rewrite (proj2 (String.eqb_neq _ _)) by done; cbn [set_prop]).
      done.
    + repeat (rewrite lookup_set_prop_ne by done). apply lookup_set_prop.
    + repeat (rewrite lookup_set_prop_ne by done). apply lookup_set_prop.
    + repeat (rewrite lookup_set_prop_ne by done). apply lookup_set_prop.
    + repeat (rewrite lookup_set_prop_ne by done). apply lookup_set_prop.
    + apply lookup_set_prop.
Qed.

Lemma serialiseCategories_array (w : World) (cats : list value) :
  fields (this w) !! Globals.CATEGORIES F = Some (VArr cats) ->
  exists raw, serialiseCategories F categories customFields w = (Ok raw, w).
Proof.
  intros Hc. eexists. unfold serialiseCategories.
  rewrite bind_run, (getField_known _ _ _ Hc). reflexivity.
Qed.

Lemma serialiseTags_array (w : World) (tags : list value) :
  fields (this w) !! Globals.TAGS F = Some (VArr tags) ->
  exists raw, serialiseTags F w = (Ok raw, w).
Proof.
  intros Ht. eexists. unfold serialiseTags.
  rewrite bind_run, (getField_known _ _ _ Ht). reflexivity.
Qed.

(** X10.  A task whose Google id cannot be put in a custom field, as when it
    is still [null], is not written: [writeTask] throws before it sends
    anything, having only emptied the set of updated fields. *)
Theorem writeTask_needs_google_id (w : World) (cats tags : list value)
  (g : value) :
  fields (this w) !! Globals.CATEGORIES F = Some (VArr cats) ->
  fields (this w) !! Globals.TAGS F = Some (VArr tags) ->
  fields (this w) !! Globals.GOOGLE_ID F = Some g ->
  typeof g <> TBoolean -> typeof g <> TString -> typeof g <> TNumber ->
  writeTask F categories categoryLists customFields service w
  = (Throw (TypeError ("Unsupported type for trello custom field: "
                       ++ type_name (typeof g))),
     with_this (with_updatedFields (fun _ => ∅)) w).
Proof.
  intros Hc Ht Hg Hb Hs Hn. unfold writeTask.
  rewrite bind_run. unfold resetUpdatedFields at 1, modify at 1.
  set (w0 := with_this (with_updatedFields (fun _ => ∅)) w).
  rewrite bind_run.
  assert (Hraw : customToRaw F categories customFields w0
                 = (Throw (TypeError
                             ("Unsupported type for trello custom field: "
                              ++ type_name (typeof g))), w0)).
  { assert (Hfields : fields (this w0) = fields (this w)) by done.
    destruct (serialiseCategories_array w0 cats) as [raw Hraw];
      [by rewrite Hfields |].
    destruct (serialiseTags_array w0 tags) as [rawTags HrawTags];
      [by rewrite Hfields |].
    unfold customToRaw. rewrite bind_run, Hraw. rewrite bind_run, HrawTags.
    rewrite bind_run. unfold getCustomFieldFromTask at 1.
    rewrite bind_run, (getField_known w0 _ g) by (by rewrite Hfields).
    unfold lift. by rewrite unsupported_type. }
  by rewrite Hraw.
Qed.

(** X14.  [parseTags] on a card without tags, with an empty tag text, and
    with a tags field that decodes to a boolean, as a field that is present
    with the value [null] does. *)
Theorem parseTags_edges (rawCard : value) :
  (getCustomFieldFromData (Config.tags customFields) rawCard = Ok VUndefined ->
   parseTags customFields rawCard = Ok [])
  /\ (getCustomFieldFromData (Config.tags customFields) rawCard
      = Ok (VStr "") ->
      parseTags customFields rawCard = Ok [])
  /\ (forall props,
        getCustomFieldFromData (Config.tags customFields) rawCard
        = customFieldToValue (VObj props) ->
        lookup_prop "value" props = Some VNull ->
        parseTags customFields rawCard
        = Throw (TypeError "split is not a function")).
Proof.
  unfold parseTags. split; [| split].
  - by intros ->.
  - by intros ->.
  - intros props -> Hnull. by rewrite (null_value_reads_false props Hnull).
Qed.

(** X19.  [updateOtherId] does not change the task.  When the Google id of
    the task can be put in a custom field it sends one request, the update of
    the Google id field of the card of the task, and its promise settles as
    the service answers; when it cannot, as when it is [null],
    [updateOtherId] throws and sends nothing. *)
Theorem updateOtherId_one_request (w : World) (id g : value) :
  fields (this w) !! Globals.TRELLO_ID F = Some id ->
  fields (this w) !! Globals.GOOGLE_ID F = Some g ->
  match valueToCustomField g with
  | Ok raw =>
      updateOtherId F customFields service w
      = (Ok match service (requests w)
                    (Requester.updateCustomField id
                       (Config.googleId customFields) raw) with
            | Requester.Success body => Fulfilled body
            | Requester.Failure reason => Rejected (Rejection reason)
            end,
         sent (Requester.updateCustomField id
                 (Config.googleId customFields) raw) w)
  | Throw e => updateOtherId F customFields service w = (Throw e, w)
  end.
Proof.
  intros Hid Hg.
  assert (Hraw : getCustomFieldFromTask (Globals.GOOGLE_ID F) w
                 = (valueToCustomField g, w)).
  { unfold getCustomFieldFromTask.
    by rewrite bind_run, (getField_known _ _ _ Hg). }
  destruct (valueToCustomField g) as [raw | e]; unfold updateOtherId;
    rewrite bind_run, (getField_known _ _ _ Hid); rewrite bind_run, Hraw;
    [| done].
  rewrite bind_run. unfold send.
  by destruct (service (requests w) _).
Qed.
End Serialising.

Section Lookups.
Import Js TaskList.
Variable F : Globals.fields.
Variable defaults : list (string * value).

(** X20.  A lookup returns a listed task that has the id it was looked up
    by, and leaves the tasks that were there as they were, in their places. *)
Theorem lookup_returns_task_with_id (trelloIds : value * value)
  (calls : list lookup) (c : lookup) :
  Forall valid calls -> valid c ->
  let w := run_all F defaults calls (initial trelloIds) in
  exists (r : ref) (x : Task.t) (w' : World),
    run F defaults c w = (Some r, w')
    /\ r ∈ tasks (this w')
    /\ heap w' !! r = Some x
    /\ idOf (target c).1 x = (target c).2
    /\ heap w `prefix_of` heap w'
    /\ tasks (this w) `prefix_of` tasks (this w').
Proof.
  intros Hcalls Hc w.
  destruct (run_all_invariant F defaults calls (initial trelloIds) Hcalls)
    as [Hone Halloc]; [apply initial_invariant.. |].
  fold w in Hone, Halloc.
  assert (Hid : isId (target c).2) by (by destruct c).
  destruct (known c w) eqn:Hknown.
  - destruct (run_old F defaults c w Hknown) as (r & x & Hrun & Hr & Hx & Heq).
    exists r, x, w. repeat split; try done.
    by apply strict_eq_isId.
  - rewrite run_new by done. eexists _, _, _. split; [done |].
    split; [| split; [| split; [| split]]].
    + apply elem_of_made. by right.
    + apply made_heap_new.
    + rewrite idOf_made. by destruct (target c).1.
    + simpl. by apply prefix_app_r.
    + simpl. by apply prefix_app_r.
Qed.
End Lookups.

Section FurtherExamples.
Import Js Eff Task TrelloInterface.

(** The name of a task set to ["y"]: it reads back, it is marked, and the
    description is as before. *)
Lemma setField_then_getField_witness :
  is_Some (fields (this (Sample.world Sample.linked)) !! "name")
  /\ exists w' : World,
       setField "name" (VStr "y") (Sample.world Sample.linked) = (Ok tt, w')
       /\ getField "name" w' = (Ok (VStr "y"), w')
       /\ "name" ∈ updatedFields (this w')
       /\ fields (this w') !! "description" = Some (VStr "d").
Proof.
  assert (Hknown : is_Some (fields (this (Sample.world Sample.linked))
                              !! "name")) by (eexists; reflexivity).
  split; [exact Hknown |].
  destruct (setField_then_getField (Sample.world Sample.linked)
              "name" "description" (VStr "y") Hknown)
    as (w' & Hset & Hget & Hmark & Hother).
  exists w'. split; [exact Hset |]. split; [exact Hget |].
  split; [exact Hmark |].
  destruct (Hother ltac:(discriminate)) as [-> _]. reflexivity.
Defined.

(** A task has no field ["colour"]. *)
Lemma unknown_field_throws_witness :
  fields (this (Sample.world Sample.linked)) !! "colour" = None
  /\ getField "colour" (Sample.world Sample.linked)
     = (Throw (NewError "Attempted to get unknown field 'colour'"),
        Sample.world Sample.linked)
  /\ setField "colour" (VNum 1) (Sample.world Sample.linked)
     = (Throw (NewError
                 "Attempted to set unknown field 'colour' to value '1'"),
        Sample.world Sample.linked).
Proof.
  split; [reflexivity |].
  destruct (unknown_field_throws (Sample.world Sample.linked) "colour"
              (VNum 1) eq_refl) as (Hget & Hset & _).
  split; [exact Hget | exact Hset].
Defined.

(** A new task: its tags are the empty list of the defaults, its name is
    [null], and it has no field ["colour"]. *)
Lemma constructor_fields_witness :
  NoDup (map fst Sample.defaults)
  /\ fields (constructor Sample.F Sample.defaults) !! "tags"
     = Some (VArr [])
  /\ fields (constructor Sample.F Sample.defaults) !! "name" = Some VNull
  /\ fields (constructor Sample.F Sample.defaults) !! "colour" = None.
Proof.
  assert (Hnd : NoDup (map fst Sample.defaults)).
  { apply (bool_decide_unpack _). vm_compute. exact I. }
  split; [exact Hnd |].
  split; [exact (proj1 (constructor_fields Sample.F Sample.defaults
                          "tags" Hnd)) |].
  split; [exact (proj1 (constructor_fields Sample.F Sample.defaults
                          "name" Hnd)) |].
  exact (proj1 (constructor_fields Sample.F Sample.defaults "colour" Hnd)).
Defined.

(** Category 3 added to a task in categories 1 and 2, twice. *)
Lemma addCategory_once_witness :
  exists w1 : World,
    addCategory Sample.F (VNum 3) (Sample.world Sample.linked) = (Ok tt, w1)
    /\ fields (this w1) !! "categories"
       = Some (VArr [VNum 1; VNum 2; VNum 3])
    /\ addCategory Sample.F (VNum 3) w1 = (Ok tt, w1).
Proof.
  destruct (addCategory_once Sample.F (Sample.world Sample.linked)
              [VNum 1; VNum 2] (VNum 3) eq_refl) as [Hadd _].
  exact (Hadd eq_refl).
Defined.

(** Category 3 added to a task in categories 1 and 2, and removed again. *)
Lemma addCategory_then_removeCategory_witness :
  exists w1 : World,
    addCategory Sample.F (VNum 3) (Sample.world Sample.linked) = (Ok tt, w1)
    /\ removeCategory Sample.F (VNum 3) w1
       = (Ok tt, Sample.world Sample.linked).
Proof.
  exact (addCategory_then_removeCategory Sample.F
           (Sample.world Sample.linked) [VNum 1; VNum 2] (VNum 3)
           eq_refl eq_refl eq_refl).
Defined.

(** Category 1 removed from a task in categories 1 and 2. *)
Lemma removeCategory_first_witness :
  removeCategory Sample.F (VNum 1) (Sample.world Sample.linked)
  = (Ok tt, (mutated "categories" [VNum 2] (Sample.world Sample.linked)).2).
Proof.
  exact (proj1 (removeCategory_first Sample.F (Sample.world Sample.linked)
                  [VNum 1; VNum 2] (VNum 1) eq_refl)).
Defined.

(** The days of a task written to its card. *)
Lemma writeFields_custom_only_witness :
  Forall (fun f => mainField Sample.F f = false) ["days"]
  /\ exists (p : settled) (w' : World) (reqs : list Requester.request),
       writeFields Sample.F Sample.categories Sample.categoryLists
         Sample.customFields Sample.accepting ["days"]
         (Sample.world Sample.dated) = (Ok p, w')
       /\ this w' = this (Sample.world Sample.dated)
       /\ requests w' = (requests (Sample.world Sample.dated) ++ reqs)%list
       /\ forall r, r ∈ reqs ->
            exists id field raw,
              r = Requester.updateCustomField id field raw
              /\ fields (this (Sample.world Sample.dated)) !! "trelloId"
                 = Some id.
Proof.
  assert (Hfields : Forall (fun f => mainField Sample.F f = false) ["days"])
    by (repeat constructor).
  split; [exact Hfields |].
  exact (writeFields_custom_only Sample.F Sample.categories
           Sample.categoryLists Sample.customFields Sample.accepting
           ["days"] (Sample.world Sample.dated) Hfields).
Defined.

(** A task whose card the board no longer has is written: a card is
    created, and the flag says so. *)
Lemma writeTask_tells_creation_witness :
  writeTask Sample.F Sample.categories Sample.categoryLists
    Sample.customFields (Sample.failing 404) (Sample.world Sample.dated)
  = (Ok Written,
     (writeTask Sample.F Sample.categories Sample.categoryLists
        Sample.customFields (Sample.failing 404)
        (Sample.world Sample.dated)).2)
  /\ trelloCardMade
       (this (writeTask Sample.F Sample.categories Sample.categoryLists
                Sample.customFields (Sample.failing 404)
                (Sample.world Sample.dated)).2) = true
  /\ exists reqs,
       requests (writeTask Sample.F Sample.categories Sample.categoryLists
                   Sample.customFields (Sample.failing 404)
                   (Sample.world Sample.dated)).2
       = (requests (Sample.world Sample.dated) ++ reqs)%list
       /\ exists raw, Requester.createCard raw ∈ reqs.
Proof.
  assert (Hrun :
    writeTask Sample.F Sample.categories Sample.categoryLists
      Sample.customFields (Sample.failing 404) (Sample.world Sample.dated)
    = (Ok Written,
       (writeTask Sample.F Sample.categories Sample.categoryLists
          Sample.customFields (Sample.failing 404)
          (Sample.world Sample.dated)).2)) by (vm_compute; reflexivity).
  assert (Hflag :
    trelloCardMade
      (this (writeTask Sample.F Sample.categories Sample.categoryLists
               Sample.customFields (Sample.failing 404)
               (Sample.world Sample.dated)).2) = true)
    by (vm_compute; reflexivity).
  split; [exact Hrun |]. split; [exact Hflag |].
  destruct (writeTask_tells_creation Sample.F Sample.categories
              Sample.categoryLists Sample.customFields (Sample.failing 404)
              _ _ Hrun) as (reqs & Hreqs & Hmade).
  exists reqs. split; [exact Hreqs |]. exact (proj1 Hmade Hflag).
Defined.

(** A task that Google does not know yet is not written. *)
Lemma writeTask_needs_google_id_witness :
  writeTask Sample.F Sample.categories Sample.categoryLists
    Sample.customFields Sample.accepting (Sample.world Sample.linked)
  = (Throw (TypeError "Unsupported type for trello custom field: object"),
     with_this (with_updatedFields (fun _ => ∅))
       (Sample.world Sample.linked)).
Proof.
  exact (writeTask_needs_google_id Sample.F Sample.categories
           Sample.categoryLists Sample.customFields Sample.accepting
           (Sample.world Sample.linked) [VNum 1; VNum 2] [] VNull
           eq_refl eq_refl eq_refl
           ltac:(discriminate) ltac:(discriminate) ltac:(discriminate)).
Defined.

(** A card loaded into a task that has a description: the task still has
    one afterwards. *)
Lemma loadIntoTask_keeps_data_witness :
  exists v',
    fields (this (loadIntoTask Sample.F Sample.categories
                    Sample.categoryLists Sample.customFields
                    (Sample.card "list-coding" [])
                    (Sample.world Sample.linked)).2) !! "description"
    = Some v'
    /\ v' <> VNull
    /\ (v' = VStr "d" \/ nothing v' = false).
Proof.
  exact (loadIntoTask_keeps_data Sample.F Sample.categories
           Sample.categoryLists Sample.customFields
           (Sample.card "list-coding" []) (Sample.world Sample.linked)
           "description" (VStr "d") eq_refl ltac:(discriminate)).
Defined.

(** The tags ["a"] and ["b"], written to a card and read back. *)
Lemma tags_round_trip_witness :
  Forall clean ["a"; "b"]
  /\ serialiseTags Sample.F
       (Sample.world (Sample.task [("tags", VArr [VStr "a"; VStr "b"])]))
     = (Ok (VObj [("value", VObj [("text", VStr "a, b")])]),
        Sample.world (Sample.task [("tags", VArr [VStr "a"; VStr "b"])]))
  /\ parseTags Sample.customFields
       (Sample.card "list-coding"
          [Sample.item "cf-tags" (VObj [("text", VStr "a, b")])])
     = Ok [VStr "a"; VStr "b"].
Proof.
  assert (Hclean : Forall clean ["a"; "b"])
    by (repeat constructor).
  split; [exact Hclean |].
  destruct (tags_round_trip Sample.F Sample.customFields
              (Sample.world
                 (Sample.task [("tags", VArr [VStr "a"; VStr "b"])]))
              ["a"; "b"]
              (Sample.card "list-coding"
                 [Sample.item "cf-tags" (VObj [("text", VStr "a, b")])])
              eq_refl Hclean) as (raw & Hraw & Hback).
  assert (Hsent :
    serialiseTags Sample.F
      (Sample.world (Sample.task [("tags", VArr [VStr "a"; VStr "b"])]))
    = (Ok (VObj [("value", VObj [("text", VStr "a, b")])]),
       Sample.world (Sample.task [("tags", VArr [VStr "a"; VStr "b"])])))
    by reflexivity.
  split; [exact Hsent |].
  rewrite Hsent in Hraw. injection Hraw as <-.
  exact (Hback eq_refl).
Defined.

(** A card with an item for another field before the one for the tags,
    and one for the tags after it. *)
Lemma getCustomFieldFromData_first_item_witness :
  getCustomFieldFromData "cf-tags"
    (Sample.card "list-coding"
       [Sample.item "cf-days" (VObj [("number", VStr "3")]);
        Sample.item "cf-tags" (VObj [("text", VStr "a")]);
        Sample.item "cf-tags" (VObj [("text", VStr "b")])])
  = Ok (VStr "a").
Proof.
  destruct (getCustomFieldFromData_first_item "cf-tags"
              [("id", VStr "card-0"); ("name", VStr "A card");
               ("idList", VStr "list-coding");
               ("customFieldItems",
                VArr [Sample.item "cf-days" (VObj [("number", VStr "3")]);
                      Sample.item "cf-tags" (VObj [("text", VStr "a")]);
                      Sample.item "cf-tags" (VObj [("text", VStr "b")])])])
    as (_ & _ & Hfirst).
  apply (Hfirst [Sample.item "cf-days" (VObj [("number", VStr "3")])]
           (Sample.item "cf-tags" (VObj [("text", VStr "a")]))
           [Sample.item "cf-tags" (VObj [("text", VStr "b")])]).
  - reflexivity.
  - repeat constructor. eexists. split; reflexivity.
  - eexists. split; reflexivity.
Defined.

(** A card that carries the Google id of a task matches it, whatever the
    id of the card. *)
Lemma doesTaskMatchData_spec_witness :
  exists r,
    doesTaskMatchData Sample.F Sample.customFields
      (Sample.card "list-coding"
         [Sample.item "cf-google-id" (VObj [("text", VStr "g1")])])
      (Sample.world Sample.dated)
    = (Ok r, Sample.world Sample.dated)
    /\ truthy r = true.
Proof.
  exact (doesTaskMatchData_spec Sample.F Sample.customFields
           (Sample.world Sample.dated)
           (Sample.card "list-coding"
              [Sample.item "cf-google-id" (VObj [("text", VStr "g1")])])
           (VStr "abc") (VStr "g1") (VStr "card-0") (VStr "g1")
           eq_refl eq_refl eq_refl eq_refl).
Defined.

(** A card whose tags field is there with the value [null]. *)
Lemma parseTags_edges_witness :
  parseTags Sample.customFields
    (Sample.card "list-coding" [Sample.item "cf-tags" VNull])
  = Throw (TypeError "split is not a function")
  /\ parseTags Sample.customFields (Sample.card "list-coding" []) = Ok [].
Proof.
  split.
  - destruct (parseTags_edges Sample.customFields
                (Sample.card "list-coding" [Sample.item "cf-tags" VNull]))
      as (_ & _ & Hnull).
    exact (Hnull [("idCustomField", VStr "cf-tags"); ("value", VNull)]
             eq_refl eq_refl).
  - destruct (parseTags_edges Sample.customFields
                (Sample.card "list-coding" [])) as (Hnone & _).
    exact (Hnone eq_refl).
Defined.

(** The checkboxes of a task in categories 1 and 2, coding and design. *)
Lemma serialiseCategories_checkboxes_witness :
  exists raw,
    serialiseCategories Sample.F Sample.categories Sample.customFields
      (Sample.world Sample.linked) = (Ok raw, Sample.world Sample.linked)
    /\ lookup_prop "cf-code" raw = Some (checkbox true)
    /\ lookup_prop "cf-design" raw = Some (checkbox true)
    /\ lookup_prop "cf-qa" raw = Some (checkbox false).
Proof.
  destruct (serialiseCategories_checkboxes Sample.F Sample.categories
              Sample.customFields (Sample.world Sample.linked)
              [VNum 1; VNum 2] eq_refl)
    as (raw & Hrun & _ & Hcode & Hqa & _ & _ & Hdesign).
  { apply (bool_decide_unpack _). vm_compute. exact I. }
  exists raw. split; [exact Hrun |]. split; [exact Hcode |].
  split; [exact Hdesign | exact Hqa].
Defined.


(** The Google id of a task sent to its card. *)
Lemma updateOtherId_one_request_witness :
  updateOtherId Sample.F Sample.customFields Sample.accepting
    (Sample.world Sample.dated)
  = (Ok (Fulfilled (VObj [])),
     sent (Requester.updateCustomField (VStr "abc") "cf-google-id"
             (VObj [("value", VObj [("text", VStr "g1")])]))
       (Sample.world Sample.dated)).
Proof.
  exact (updateOtherId_one_request Sample.F Sample.customFields
           Sample.accepting (Sample.world Sample.dated)
           (VStr "abc") (VStr "g1") eq_refl eq_refl).
Defined.
End FurtherExamples.

Section FurtherListExamples.
Import Js TaskList.

(** A list with one task from Google, and a lookup by a Trello id. *)
Lemma lookup_returns_task_with_id_witness :
  Forall valid [FromGoogle (VNum 7)]
  /\ valid (FromTrello (VStr "abc"))
  /\ exists (r : ref) (x : Task.t) (w' : World),
       run Sample.F Sample.defaults (FromTrello (VStr "abc"))
         (run_all Sample.F Sample.defaults [FromGoogle (VNum 7)]
            (initial (VStr "board", VObj Sample.categoryLists)))
       = (Some r, w')
       /\ r ∈ tasks (this w')
       /\ heap w' !! r = Some x
       /\ Task.trelloId x = VStr "abc".
Proof.
  assert (Hcalls : Forall valid [FromGoogle (VNum 7)])
    by (repeat constructor).
  split; [exact Hcalls |]. split; [exact I |].
  destruct (lookup_returns_task_with_id Sample.F Sample.defaults
              (VStr "board", VObj Sample.categoryLists)
              [FromGoogle (VNum 7)] (FromTrello (VStr "abc")) Hcalls I)
    as (r & x & w' & Hrun & Hin & Hx & Hid & _).
  exists r, x, w'. split; [exact Hrun |]. split; [exact Hin |].
  split; [exact Hx | exact Hid].
Defined.
End FurtherListExamples.
